(** * pico-pio-isr: the PIO interrupt handshake of [src/main.cpp]

    The program routes the interrupt flags of four PIO state machines to
    the core through one shared interrupt service routine.  The code of
    the two execution contexts (the main thread and the interrupt
    handler) is embedded as interaction trees over the platform calls and
    the memory accesses it performs; an executor interleaves the main
    thread with the hardware and with interrupt delivery according to an
    explicit schedule.

    - The functions of [main.cpp] are the trees [simply_isr_handler],
      [enable_pio_isrs], [load_pio_programs], [trigger_isr] and [main];
      every use of the volatile [irq_flags] is an access of its own, so
      that an interrupt can fall between any two of them.
    - The SDK calls act on a [machine] ([handle]); the only call that can
      wait is [pio_sm_put_blocking], at a full queue ([unblocked]).
    - The PIO program and the interrupt line are not in [main.cpp]; they
      are [sm_step], [line_asserted] and [take_irq].
    - A [schedule] says what the hardware and the interrupt controller do
      before each turn of the main thread; the handler itself runs to its
      end, with only the hardware going on beside it. *)

From Stdlib Require Import ZArith List String Ascii Bool Lia DecimalString.
From ITree Require Import ITree Eq.Shallow.
Import ListNotations.
Import ITreeNotations.

Local Open Scope string_scope.
Local Open Scope Z_scope.
Local Open Scope itree_scope.

(* ===================================================================== *)
(** ** Constants of [main.cpp] *)
(* ===================================================================== *)

(** [#define PIO_SM_n_IRQ]: the bit of the IRQ register that state machine
    [n] sets. *)
Definition PIO_SM_0_IRQ : Z := 1.   (* 0b0001 *)
Definition PIO_SM_1_IRQ : Z := 2.   (* 0b0010 *)
Definition PIO_SM_2_IRQ : Z := 4.   (* 0b0100 *)
Definition PIO_SM_3_IRQ : Z := 8.   (* 0b1000 *)

(** The PIO block and the interrupt line used throughout. *)
Inductive PIO : Set := pio0.
Inductive irq_num : Set := PIO0_IRQ_0.

(** Functions whose address is handed to the interrupt controller. *)
Inductive fnptr : Set := fn_simply_isr_handler.

(* ===================================================================== *)
(** ** printf conversions *)
(* ===================================================================== *)

Definition LF : string := String (ascii_of_nat 10) EmptyString.

(** The 32-bit pattern of a value, as [%X] prints an [int] argument. *)
Definition wrap32 (z : Z) : Z := z mod 2 ^ 32.

(** [1 << sm] on a 32-bit [int]. *)
Definition shl1 (sm : Z) : Z := wrap32 (Z.shiftl 1 sm).

Definition hex_digit (n : Z) : ascii :=
  if n <? 10 then ascii_of_nat (Z.to_nat (48 + n))    (* '0'..'9' *)
  else ascii_of_nat (Z.to_nat (55 + n)).               (* 'A'..'F' *)

Definition nibble (v : Z) (i : Z) : Z := Z.land (Z.shiftr v (4 * i)) 15.

(** [%08X] of a 32-bit value: eight upper-case hexadecimal digits. *)
Definition fmt_08X (v : Z) : string :=
  fold_right (fun i s => String (hex_digit (nibble v i)) s) EmptyString
             [7; 6; 5; 4; 3; 2; 1; 0].

(** [%d]. *)
Definition fmt_d (v : Z) : string := NilZero.string_of_int (Z.to_int v).

(* ===================================================================== *)
(** ** Platform calls and memory accesses *)
(* ===================================================================== *)

(** Everything the code does to the outside world: the SDK functions it
    calls and its accesses to the volatile global [irq_flags] and to the
    register [pio0_hw->irq]. *)
Variant picoE : Type -> Type :=
| Stdio_init_all : picoE unit
| Printf (line : string) : picoE unit
| Pio_add_program (pio : PIO) : picoE Z
| Simply_isr_program_init (pio : PIO) (sm offset : Z) : picoE unit
| Irq_set_exclusive_handler (n : irq_num) (h : fnptr) : picoE unit
| Irq_set_enabled (n : irq_num) (enabled : bool) : picoE unit
| Pio_sm_put_blocking (pio : PIO) (sm data : Z) : picoE unit
| Sleep_ms (ms : Z) : picoE unit
| Load_irq_flags : picoE Z
| Store_irq_flags (v : Z) : picoE unit
| Load_pio0_hw_irq : picoE Z
| Hw_clear_bits_pio0_hw_irq (mask : Z) : picoE unit.

Definition stdio_init_all : itree picoE unit := ITree.trigger Stdio_init_all.
Definition printf (line : string) : itree picoE unit := ITree.trigger (Printf line).
Definition pio_add_program (pio : PIO) : itree picoE Z :=
  ITree.trigger (Pio_add_program pio).
Definition simply_isr_program_init (pio : PIO) (sm offset : Z) : itree picoE unit :=
  ITree.trigger (Simply_isr_program_init pio sm offset).
Definition irq_set_exclusive_handler (n : irq_num) (h : fnptr) : itree picoE unit :=
  ITree.trigger (Irq_set_exclusive_handler n h).
Definition irq_set_enabled (n : irq_num) (enabled : bool) : itree picoE unit :=
  ITree.trigger (Irq_set_enabled n enabled).
Definition pio_sm_put_blocking (pio : PIO) (sm data : Z) : itree picoE unit :=
  ITree.trigger (Pio_sm_put_blocking pio sm data).
Definition sleep_ms (ms : Z) : itree picoE unit := ITree.trigger (Sleep_ms ms).
Definition load_irq_flags : itree picoE Z := ITree.trigger Load_irq_flags.
Definition store_irq_flags (v : Z) : itree picoE unit :=
  ITree.trigger (Store_irq_flags v).
Definition load_pio0_hw_irq : itree picoE Z := ITree.trigger Load_pio0_hw_irq.
Definition hw_clear_bits_pio0_hw_irq (mask : Z) : itree picoE unit :=
  ITree.trigger (Hw_clear_bits_pio0_hw_irq mask).

(** C's [if (c) { }] with the commented-out body of the source. *)
Definition if_then_nothing (c : Z) : itree picoE unit :=
  if c =? 0 then Ret tt else Ret tt.

(* ===================================================================== *)
(** ** The functions of [main.cpp] *)
(* ===================================================================== *)

(** [void simply_isr_handler()], lines 61-69.  The argument of
    [hw_clear_bits] is a second read of the volatile [irq_flags]. *)
Definition simply_isr_handler : itree picoE unit :=
  v <- load_pio0_hw_irq ;;
  store_irq_flags v ;;
  mask <- load_irq_flags ;;
  hw_clear_bits_pio0_hw_irq mask.

(** [void enable_pio_isrs()], lines 77-86. *)
Definition enable_pio_isrs : itree picoE unit :=
  irq_set_exclusive_handler PIO0_IRQ_0 fn_simply_isr_handler ;;
  irq_set_enabled PIO0_IRQ_0 true.

(** [void load_pio_programs()], lines 91-103. *)
Definition load_pio_programs : itree picoE unit :=
  let pio := pio0 in
  offset <- pio_add_program pio ;;
  simply_isr_program_init pio 0 offset ;;
  simply_isr_program_init pio 1 offset ;;
  simply_isr_program_init pio 2 offset ;;
  simply_isr_program_init pio 3 offset.

(** [void trigger_isr(int sm)], lines 109-135.  Every mention of the
    volatile [irq_flags] is a load of its own. *)
Definition trigger_isr (sm : Z) : itree picoE unit :=
  printf ("Triggering ISR from state machine " ++ fmt_d sm ++ LF) ;;
  pio_sm_put_blocking pio0 sm 1 ;;
  printf ("Expected IRQ flags: 0x" ++ fmt_08X (shl1 sm) ++ LF) ;;
  actual <- load_irq_flags ;;
  printf ("Actual IRQ Flags: 0x" ++ fmt_08X actual ++ LF) ;;
  f0 <- load_irq_flags ;; if_then_nothing (Z.land f0 PIO_SM_0_IRQ) ;;
  f1 <- load_irq_flags ;; if_then_nothing (Z.land f1 PIO_SM_1_IRQ) ;;
  f2 <- load_irq_flags ;; if_then_nothing (Z.land f2 PIO_SM_2_IRQ) ;;
  f3 <- load_irq_flags ;; if_then_nothing (Z.land f3 PIO_SM_3_IRQ) ;;
  store_irq_flags 0.

(** The body of [while (true)], lines 150-164. *)
Definition main_loop_body : itree picoE unit :=
  trigger_isr 0 ;;
  sleep_ms 1000 ;;
  trigger_isr 1 ;;
  sleep_ms 1000 ;;
  trigger_isr 2 ;;
  sleep_ms 1000 ;;
  trigger_isr 3 ;;
  sleep_ms 1000.

(** [int main()], lines 137-166: a leaf of this tree would be a return
    value of [main]. *)
Definition main : itree picoE Z :=
  stdio_init_all ;;
  load_pio_programs ;;
  enable_pio_isrs ;;
  ITree.forever main_loop_body.

(** The function behind a function pointer. *)
Definition fn_body (h : fnptr) : itree picoE unit :=
  match h with
  | fn_simply_isr_handler => simply_isr_handler
  end.

(* ===================================================================== *)
(** ** The machine *)
(* ===================================================================== *)

(** The SDK calls of the main thread, in the order they were made. *)
Inductive call : Type :=
| call_stdio_init_all
| call_printf (line : string)
| call_pio_add_program (returned : Z)
| call_simply_isr_program_init (sm offset : Z)
| call_irq_set_exclusive_handler (h : fnptr)
| call_irq_set_enabled (enabled : bool)
| call_pio_sm_put_blocking (sm data : Z)
| call_sleep_ms (ms : Z).

Record machine : Type := mkMachine {
  irq_flags : Z;                (* volatile uint32_t irq_flags *)
  pio0_hw_irq : Z;              (* pio0_hw->irq, the pending flags *)
  tx_fifo : Z -> list Z;        (* TX FIFO of each state machine *)
  tx_depth : nat;               (* words a TX FIFO holds *)
  sm_offset : Z -> option Z;    (* program each state machine runs *)
  add_program_offset : Z;       (* where the SDK finds room for a program *)
  vector : option fnptr;        (* handler installed for PIO0_IRQ_0 *)
  irq_enabled : bool;           (* PIO0_IRQ_0 enabled at the core *)
  calls : list call
}.

Definition set_irq_flags (v : Z) (m : machine) : machine :=
  mkMachine v (pio0_hw_irq m) (tx_fifo m) (tx_depth m) (sm_offset m)
            (add_program_offset m) (vector m) (irq_enabled m) (calls m).

Definition set_pio0_hw_irq (v : Z) (m : machine) : machine :=
  mkMachine (irq_flags m) v (tx_fifo m) (tx_depth m) (sm_offset m)
            (add_program_offset m) (vector m) (irq_enabled m) (calls m).

Definition set_tx_fifo (sm : Z) (q : list Z) (m : machine) : machine :=
  mkMachine (irq_flags m) (pio0_hw_irq m)
            (fun i => if i =? sm then q else tx_fifo m i)
            (tx_depth m) (sm_offset m) (add_program_offset m)
            (vector m) (irq_enabled m) (calls m).

Definition set_sm_offset (sm : Z) (offset : Z) (m : machine) : machine :=
  mkMachine (irq_flags m) (pio0_hw_irq m) (tx_fifo m) (tx_depth m)
            (fun i => if i =? sm then Some offset else sm_offset m i)
            (add_program_offset m)
            (vector m) (irq_enabled m) (calls m).

Definition set_vector (h : fnptr) (m : machine) : machine :=
  mkMachine (irq_flags m) (pio0_hw_irq m) (tx_fifo m) (tx_depth m) (sm_offset m)
            (add_program_offset m) (Some h) (irq_enabled m) (calls m).

Definition set_irq_enabled (b : bool) (m : machine) : machine :=
  mkMachine (irq_flags m) (pio0_hw_irq m) (tx_fifo m) (tx_depth m) (sm_offset m)
            (add_program_offset m) (vector m) b (calls m).

Definition log (c : call) (m : machine) : machine :=
  mkMachine (irq_flags m) (pio0_hw_irq m) (tx_fifo m) (tx_depth m) (sm_offset m)
            (add_program_offset m) (vector m) (irq_enabled m) (calls m ++ [c]).

(** [pio_sm_put_blocking] waits while the queue of its state machine is
    full; nothing else the code does can wait. *)
Definition unblocked {X : Type} (e : picoE X) (m : machine) : bool :=
  match e with
  | Pio_sm_put_blocking _ sm _ => (List.length (tx_fifo m sm) <? tx_depth m)%nat
  | _ => true
  end.

(** What one call or memory access does to the machine once it can
    proceed, and what it returns.  [hw_clear_bits] clears in the register
    the bits of its mask, [reg &= ~mask], as the SDK documents it and the
    comment at line 66 of [main.cpp] expects of the write-1-to-clear
    register. *)
Definition handle {X : Type} (e : picoE X) (m : machine) : machine * X :=
  match e in picoE X return machine * X with
  | Stdio_init_all => (log call_stdio_init_all m, tt)
  | Printf line => (log (call_printf line) m, tt)
  | Pio_add_program _ =>
      (log (call_pio_add_program (add_program_offset m)) m, add_program_offset m)
  | Simply_isr_program_init _ sm offset =>
      (log (call_simply_isr_program_init sm offset) (set_sm_offset sm offset m), tt)
  | Irq_set_exclusive_handler _ h =>
      (log (call_irq_set_exclusive_handler h) (set_vector h m), tt)
  | Irq_set_enabled _ b =>
      (log (call_irq_set_enabled b) (set_irq_enabled b m), tt)
  | Pio_sm_put_blocking _ sm data =>
      (log (call_pio_sm_put_blocking sm data) (set_tx_fifo sm (tx_fifo m sm ++ [data]) m), tt)
  | Sleep_ms ms => (log (call_sleep_ms ms) m, tt)
  | Load_irq_flags => (m, irq_flags m)
  | Store_irq_flags v => (set_irq_flags v m, tt)
  | Load_pio0_hw_irq => (m, pio0_hw_irq m)
  | Hw_clear_bits_pio0_hw_irq mask =>
      (set_pio0_hw_irq (Z.land (pio0_hw_irq m) (Z.lnot mask)) m, tt)
  end.

(* ===================================================================== *)
(** ** Execution under a schedule *)
(* ===================================================================== *)

Inductive outcome (R : Type) : Type :=
| Done (m : machine) (slot : nat) (fuel_left : nat) (r : R)
| Out_of_fuel (m : machine) (slot : nat)
| Fault (m : machine) (slot : nat).
Arguments Done {R}.
Arguments Out_of_fuel {R}.
Arguments Fault {R}.

Definition returned {R : Type} (o : outcome R) : option R :=
  match o with
  | Done _ _ _ r => Some r
  | _ => None
  end.

Section Exec.
(** The actions of whatever runs beside the code, and their effect;
    [None] is a fatal stop of the core. *)
Context {A : Type} (act : A -> machine -> option machine).

Fixpoint run_actions (l : list A) (m : machine) : option machine :=
  match l with
  | [] => Some m
  | a :: l' =>
      match act a m with
      | Some m' => run_actions l' m'
      | None => None
      end
  end.

(** [exec fuel t sched slot m]: run [t] from [m] for at most [fuel]
    turns; before the code's turn number [slot] the actions [sched slot]
    take place.  In a turn the code makes its next call or memory access,
    or goes on waiting at a full queue.  Returning costs nothing. *)
Fixpoint exec {R : Type} (fuel : nat) (t : itree picoE R)
         (sched : nat -> list A) (slot : nat) (m : machine) : outcome R :=
  match observe t with
  | RetF r => Done m slot fuel r
  | TauF t' =>
      match fuel with
      | O => Out_of_fuel m slot
      | S n => exec n t' sched slot m
      end
  | VisF e k =>
      match fuel with
      | O => Out_of_fuel m slot
      | S n =>
          match run_actions (sched slot) m with
          | None => Fault m slot
          | Some m1 =>
              if unblocked e m1 then
                let (m2, x) := handle e m1 in
                exec n (k x) sched (S slot) m2
              else exec n t sched (S slot) m1
          end
      end
  end.
End Exec.

(* ===================================================================== *)
(** ** The hardware and the interrupt controller *)
(* ===================================================================== *)

(** Modelled from the spec: the PIO program [simply_isr.pio] is not part of
    the sources at hand.  By the comment at [PIO_SM_n_IRQ] (its
    [irq wait 0 rel]) and the spec's external interfaces, state machine
    [n], once initialised, takes a word from its TX FIFO, sets bit [n] of
    the IRQ register and waits until that bit is cleared. *)
Definition sm_step (sm : Z) (m : machine) : machine :=
  if (0 <=? sm) && (sm <=? 3) then
    match sm_offset m sm, tx_fifo m sm with
    | Some _, _ :: rest =>
        if Z.testbit (pio0_hw_irq m) sm then m
        else set_pio0_hw_irq (Z.lor (pio0_hw_irq m) (Z.shiftl 1 sm))
                             (set_tx_fifo sm rest m)
    | _, _ => m
    end
  else m.

(** What the hardware can do on its own. *)
Inductive hw_action : Type :=
| Sm_step (sm : Z).

Definition hw_act (a : hw_action) (m : machine) : option machine :=
  match a with
  | Sm_step sm => Some (sm_step sm m)
  end.

(** Modelled from the spec: the interrupt line of the PIO block is
    asserted while one of the four meaningful flags is pending. *)
Definition line_asserted (m : machine) : bool :=
  negb (Z.land (pio0_hw_irq m) 15 =? 0).

(** Steps of [simply_isr_handler]: its four accesses. *)
Definition isr_fuel : nat := 4.

(** The core takes the interrupt: the installed handler runs to its end
    while the hardware goes on ([during]); the main thread does not run.
    With the interrupt enabled and no handler installed the core stops
    (lines 82-84 of [main.cpp]). *)
Definition take_irq (during : nat -> list hw_action) (m : machine) : option machine :=
  if irq_enabled m && line_asserted m then
    match vector m with
    | Some h =>
        match exec hw_act isr_fuel (fn_body h) during 0 m with
        | Done m' _ _ _ => Some m'
        | _ => None
        end
    | None => None
    end
  else Some m.

(** What happens beside the main thread. *)
Inductive env_action : Type :=
| Hw (a : hw_action)
| Take_irq (during : nat -> list hw_action).

Definition env_act (a : env_action) (m : machine) : option machine :=
  match a with
  | Hw a => hw_act a m
  | Take_irq during => take_irq during m
  end.

Definition schedule : Type := nat -> list env_action.

(** Nothing happens beside the code. *)
Definition quiet {A : Type} : nat -> list A := fun _ => [].

(** The main thread under a schedule, and the handler on its own. *)
Definition run {R : Type} (fuel : nat) (t : itree picoE R)
           (sched : schedule) (m : machine) : outcome R :=
  exec env_act fuel t sched 0 m.

(* ===================================================================== *)
(** ** Observations *)
(* ===================================================================== *)

(** The lines written to the console. *)
Fixpoint console (l : list call) : list string :=
  match l with
  | [] => []
  | call_printf line :: l' => line :: console l'
  | _ :: l' => console l'
  end.

(** The stimulations and delays, in order. *)
Inductive pace : Type :=
| Stimulate (sm data : Z)
| Delay (ms : Z).

Fixpoint pacing (l : list call) : list pace :=
  match l with
  | [] => []
  | call_pio_sm_put_blocking sm data :: l' => Stimulate sm data :: pacing l'
  | call_sleep_ms ms :: l' => Delay ms :: pacing l'
  | _ :: l' => pacing l'
  end.

(** The power-on state: nothing pending, nothing queued, no state machine
    started, no handler, interrupt disabled; the queues hold [depth] words
    and the loader will answer [offset]. *)
Definition boot (depth : nat) (offset : Z) : machine :=
  mkMachine 0 0 (fun _ => []) depth (fun _ => None) offset None false [].

(** The hardware left to itself. *)
Definition hw_run (l : list hw_action) (m : machine) : machine :=
  fold_left (fun m a => match a with Sm_step sm => sm_step sm m end) l m.

(** The handler run as one step, and the state in which the environment
    leaves the machine. *)
Definition isr_run (during : nat -> list hw_action) (m : machine) : machine :=
  match exec hw_act isr_fuel simply_isr_handler during 0 m with
  | Done m' _ _ _ => m'
  | _ => m
  end.

Definition env_after (l : list env_action) (m : machine) : machine :=
  match run_actions env_act l m with
  | Some m' => m'
  | None => m
  end.

(** No interrupt can arrive without a handler to take it. *)
Definition handled (m : machine) : Prop :=
  irq_enabled m = true -> vector m = Some fn_simply_isr_handler.

(** What the environment never touches. *)
Definition same_config (m m' : machine) : Prop :=
  calls m' = calls m /\ vector m' = vector m /\ irq_enabled m' = irq_enabled m /\
  sm_offset m' = sm_offset m /\ add_program_offset m' = add_program_offset m /\
  tx_depth m' = tx_depth m.

(** The queue of state machine [sm] takes another word. *)
Definition room (sm : Z) (m : machine) : Prop :=
  (List.length (tx_fifo m sm) < tx_depth m)%nat.

(** The machine state in which a run stopped. *)
Definition machine_of {R : Type} (o : outcome R) : machine :=
  match o with
  | Done m _ _ _ => m
  | Out_of_fuel m _ => m
  | Fault m _ => m
  end.

(** [keeps I t]: from a state in [I], wherever the run of [t] has got to
    the state is in [I], and the core has not stopped. *)
Definition keeps (I : machine -> Prop) {R : Type} (t : itree picoE R) : Prop :=
  forall (fuel : nat) (sched : schedule) (slot : nat) (m : machine),
    I m ->
    match exec env_act fuel t sched slot m with
    | Fault _ _ => False
    | o => I (machine_of o)
    end.

(** [returns t Q m]: whenever a run of [t] from [m] returns, under any
    schedule and after any wait, [Q] holds of the final state and the
    result. *)
Definition returns {R : Type} (t : itree picoE R)
           (Q : machine -> R -> Prop) (m : machine) : Prop :=
  forall (fuel : nat) (sched : schedule) (slot : nat),
    match exec env_act fuel t sched slot m with
    | Done m' _ _ r => Q m' r
    | _ => True
    end.

(** One turn of the loop, as seen from outside. *)
Definition one_cycle : list pace :=
  [Stimulate 0 1; Delay 1000; Stimulate 1 1; Delay 1000;
   Stimulate 2 1; Delay 1000; Stimulate 3 1; Delay 1000].

Fixpoint cycles (c : nat) : list pace :=
  match c with
  | O => []
  | S c' => one_cycle ++ cycles c'
  end.

(** The words sent to one state machine. *)
Fixpoint words_to (sm : Z) (l : list pace) : list Z :=
  match l with
  | [] => []
  | Stimulate sm' data :: l' =>
      if sm' =? sm then data :: words_to sm l' else words_to sm l'
  | Delay _ :: l' => words_to sm l'
  end.

(** Nothing pending and nothing queued: every stimulus sent so far has
    been serviced. *)
Definition idle (m : machine) : Prop :=
  pio0_hw_irq m = 0 /\ forall j : Z, tx_fifo m j = [].

(** The state the start-up leaves behind, and every serviced stimulus
    restores. *)
Definition ready (m : machine) : Prop :=
  idle m /\ irq_enabled m = true /\ vector m = Some fn_simply_isr_handler /\
  (0 < tx_depth m)%nat /\
  forall j : Z, 0 <= j <= 3 -> sm_offset m j <> None.

(** Among the actions [l], state machine [k] raises its flag and later
    the core takes the interrupt. *)
Definition serviced_in (k : Z) (l : list env_action) : Prop :=
  exists l1 l2 during l3,
    l = (l1 ++ Hw (Sm_step k) :: l2 ++ Take_irq during :: l3)%list.

(** How far the stimulus of state machine [k] has got. *)
Inductive phase : Set := Queued | Raised | Serviced.

Definition advance (k : Z) (p : phase) (a : env_action) : phase :=
  match p, a with
  | Queued, Hw (Sm_step j) => if j =? k then Raised else Queued
  | Raised, Take_irq _ => Serviced
  | _, _ => p
  end.

Definition in_phase (k : Z) (p : phase) (m : machine) : Prop :=
  match p with
  | Queued => pio0_hw_irq m = 0 /\ (exists w, tx_fifo m k = [w]) /\
              forall j : Z, j <> k -> tx_fifo m j = []
  | Raised => pio0_hw_irq m = Z.shiftl 1 k /\ forall j : Z, tx_fifo m j = []
  | Serviced => idle m /\ irq_flags m = Z.shiftl 1 k
  end.

Definition armed (k : Z) (m : machine) : Prop :=
  irq_enabled m = true /\ vector m = Some fn_simply_isr_handler /\
  sm_offset m k <> None.

(** The machine when [main] enters its loop, left alone from power-on. *)
Definition started (offset : Z) : machine :=
  machine_of (run 8 main quiet (boot 4 offset)).

(** The hardware at its most diligent: in every slot each state machine
    gets its turn and the core then takes what is pending. *)
Definition eager : schedule :=
  fun _ => [Hw (Sm_step 0); Hw (Sm_step 1); Hw (Sm_step 2); Hw (Sm_step 3);
            Take_irq quiet].

(** Flag 0 pending and a word waiting in the queue of state machine 2. *)
Definition stale_0 : machine :=
  set_tx_fifo 2 [1] (set_pio0_hw_irq 1 (started 0)).

(** A schedule in which the flag of state machine [k] is raised and the
    interrupt taken right after the stimulus of a [trigger_isr] that starts
    at slot 0. *)
Definition prompt (k : Z) : schedule :=
  fun slot =>
    match slot with
    | 2%nat => [Hw (Sm_step k); Take_irq quiet]
    | _ => []
    end.

(** A turn of the environment in which only the hardware acts: no
    interrupt is taken. *)
Definition is_hw (a : env_action) : bool :=
  match a with
  | Hw _ => true
  | Take_irq _ => false
  end.

Definition hw_only (l : list env_action) : Prop := forallb is_hw l = true.

(** [always t J m]: wherever a run of [t] from [m] has got to, under any
    schedule, [J] holds of the state. *)
Definition always {R : Type} (t : itree picoE R)
           (J : machine -> Prop) (m : machine) : Prop :=
  forall (fuel : nat) (sched : schedule) (slot : nat),
    J (machine_of (exec env_act fuel t sched slot m)).

(** What the start-up sets up: handler installed, interrupt enabled, the
    four state machines running the program at [offset]. *)
Definition configured (offset : Z) (m : machine) : Prop :=
  irq_enabled m = true /\ vector m = Some fn_simply_isr_handler /\
  forall j : Z, 0 <= j <= 3 -> sm_offset m j = Some offset.

(** The calls of the start-up of [main], lines 139-145. *)
Definition startup_calls (offset : Z) : list call :=
  [call_stdio_init_all;
   call_pio_add_program offset;
   call_simply_isr_program_init 0 offset;
   call_simply_isr_program_init 1 offset;
   call_simply_isr_program_init 2 offset;
   call_simply_isr_program_init 3 offset;
   call_irq_set_exclusive_handler fn_simply_isr_handler;
   call_irq_set_enabled true].

(** The three lines of [trigger_isr k] when the value read is [actual]. *)
Definition trigger_lines (k actual : Z) : list string :=
  ["Triggering ISR from state machine " ++ fmt_d k ++ LF;
   "Expected IRQ flags: 0x" ++ fmt_08X (shl1 k) ++ LF;
   "Actual IRQ Flags: 0x" ++ fmt_08X actual ++ LF]%string.

(** The console of one turn of the loop in which every read saw the flag
    of its own stimulus, and of [c] such turns. *)
Definition matching_cycle : list string :=
  (trigger_lines 0 1 ++ trigger_lines 1 2 ++ trigger_lines 2 4 ++ trigger_lines 3 8)%list.

Fixpoint matching_cycles (c : nat) : list string :=
  match c with
  | O => []
  | S c' => (matching_cycle ++ matching_cycles c')%list
  end.

(** A state machine stalled on its pending flag, with the interrupt
    disabled, stays stalled whatever the environment does, and its queue
    stays as full as it is. *)
Definition stalled_full (sm : Z) (m : machine) : Prop :=
  irq_enabled m = false /\ Z.testbit (pio0_hw_irq m) sm = true /\
  (tx_depth m <= List.length (tx_fifo m sm))%nat.

(** The configuration is the same in both states (the call log may have
    grown). *)
Definition stable (m m' : machine) : Prop :=
  vector m' = vector m /\ irq_enabled m' = irq_enabled m /\
  sm_offset m' = sm_offset m /\ add_program_offset m' = add_program_offset m /\
  tx_depth m' = tx_depth m.

(** The calls of [trigger_isr sm] when the value read is [actual], of
    [trigger_isr sm] with the delay after it, and of one turn of the loop. *)
Definition isr_calls (sm actual : Z) : list call :=
  [call_printf ("Triggering ISR from state machine " ++ fmt_d sm ++ LF);
   call_pio_sm_put_blocking sm 1;
   call_printf ("Expected IRQ flags: 0x" ++ fmt_08X (shl1 sm) ++ LF);
   call_printf ("Actual IRQ Flags: 0x" ++ fmt_08X actual ++ LF)].

Definition turn_calls (sm actual : Z) : list call :=
  (isr_calls sm actual ++ [call_sleep_ms 1000])%list.

Definition body_calls (a0 a1 a2 a3 : Z) : list call :=
  (turn_calls 0 a0 ++ turn_calls 1 a1 ++ turn_calls 2 a2 ++ turn_calls 3 a3)%list.

(** The calls of any number of whole turns of the loop. *)
Inductive whole_turns : list call -> Prop :=
| whole_turns_nil : whole_turns []
| whole_turns_snoc (done : list call) (a0 a1 a2 a3 : Z) :
    whole_turns done -> whole_turns (done ++ body_calls a0 a1 a2 a3).

(** Where a run of [main] from [m] can be: in the start-up, having made
    some first part of its calls, or in the loop, configured, after some
    whole turns and a first part of the next. *)
Definition main_moment (m x : machine) : Prop :=
  (exists l q : list call,
      (l ++ q)%list = startup_calls (add_program_offset m) /\
      calls x = (calls m ++ l)%list) \/
  (configured (add_program_offset m) x /\
   exists (done p q : list call) (a0 a1 a2 a3 : Z),
     whole_turns done /\ (p ++ q)%list = body_calls a0 a1 a2 a3 /\
     calls x = (calls m ++ startup_calls (add_program_offset m) ++ done ++ p)%list).

(** A run of [main] from [m] is in its start-up, at [x], with the first
    [done] calls made. *)
Definition startup_at (m x : machine) (done : nat) : Prop :=
  calls x = (calls m ++ firstn done (startup_calls (add_program_offset m)))%list /\
  add_program_offset x = add_program_offset m /\
  (forall j : Z, 0 <= j <= 3 -> j + 2 < Z.of_nat done ->
                 sm_offset x j = Some (add_program_offset m)) /\
  ((6 < done)%nat -> vector x = Some fn_simply_isr_handler) /\
  ((7 < done)%nat -> irq_enabled x = true).

(** The state between two turns of the loop of a run of [main] from [m]. *)
Definition between_turns (m x : machine) : Prop :=
  configured (add_program_offset m) x /\
  exists done : list call,
    whole_turns done /\
    calls x = (calls m ++ startup_calls (add_program_offset m) ++ done)%list.

(** Hardware that never keeps a stimulus waiting: within any two
    consecutive turns of the environment every state machine gets a step
    and the core then takes what is pending. *)
Definition attentive (sched : schedule) : Prop :=
  forall (slot : nat) (k : Z),
    0 <= k <= 3 ->
    serviced_in k (sched (2 + slot)%nat ++ sched (3 + slot)%nat).

(** Words waiting in the queues of state machines 0 and 1. *)
Definition two_queued : machine :=
  set_tx_fifo 1 [1] (set_tx_fifo 0 [1] (started 0)).

(** Hardware in which state machine [k] runs and no interrupt is ever
    taken. *)
Definition unattended (k : Z) : schedule := fun _ => [Hw (Sm_step k)].

(** A schedule in which the flag of state machine [k] is raised and the
    interrupt taken only after the read of a [trigger_isr] that starts at
    slot 0. *)
Definition late (k : Z) : schedule :=
  fun slot =>
    match slot with
    | 5%nat => [Hw (Sm_step k); Take_irq quiet]
    | _ => []
    end.

(** The interrupt enabled with no handler installed, state machine 2
    running. *)
Definition unguarded : machine :=
  set_sm_offset 2 0 (set_irq_enabled true (boot 4 0)).

(** The interrupt disabled, flag 2 pending and the queue of state machine
    2 full. *)
Definition jammed : machine :=
  set_tx_fifo 2 [1; 1; 1; 1] (set_pio0_hw_irq 4 (boot 4 0)).

(** Flag 2 pending and a word waiting in the queue of state machine 0. *)
Definition pending_2_queued_0 : machine :=
  set_tx_fifo 0 [1] (set_pio0_hw_irq 4 (started 0)).

(** Hardware in which state machine 0 takes its step while the handler
    runs, after the handler has read the register and before it
    acknowledges. *)
Definition raised_meanwhile : nat -> list hw_action :=
  fun slot =>
    match slot with
    | 1%nat => [Sm_step 0]
    | _ => []
    end.

(** A schedule for [main] from power-on in which the flag of state machine
    0 is raised after its stimulus (slot 10) and no interrupt is taken
    then, and the flag of state machine 1 is raised and the interrupt
    taken right after the next stimulus (slot 21), before the read of
    [trigger_isr 1]. *)
Definition crossed : schedule :=
  fun slot =>
    match slot with
    | 10%nat => [Hw (Sm_step 0)]
    | 21%nat => [Hw (Sm_step 1); Take_irq quiet]
    | _ => []
    end.

(** Where [main] has got to under [crossed] when [trigger_isr 1] starts. *)
Definition crossed_19 : machine :=
  machine_of (run 19 main crossed (boot 4 0)).

(* ===================================================================== *)
(** * Properties *)
(* ===================================================================== *)

(** ** The executor *)

Section ExecFacts.
Context {A : Type} (act : A -> machine -> option machine).

Lemma run_actions_app (l1 l2 : list A) (m : machine) :
  run_actions act (l1 ++ l2) m =
  match run_actions act l1 m with
  | Some m' => run_actions act l2 m'
  | None => None
  end.
Proof.
  revert m. induction l1 as [|a l1 IH]; intros m; simpl; [reflexivity|].
  destruct (act a m); [apply IH | reflexivity].
Qed.

(** The executor sees a tree through [observe] only. *)
Lemma exec_observe {R : Type} (n : nat) (t1 t2 : itree picoE R)
      (sched : nat -> list A) (slot : nat) (m : machine) :
  observe t1 = observe t2 -> exec act n t1 sched slot m = exec act n t2 sched slot m.
Proof.
  intros E. revert slot m. induction n as [|n IH]; intros slot m; cbn [exec]; rewrite E.
  - reflexivity.
  - destruct (observe t2) as [r | t' | X e h]; [reflexivity | reflexivity |].
    destruct (run_actions act (sched slot) m) as [m1|]; [|reflexivity].
    destruct (unblocked e m1); [reflexivity | apply IH].
Qed.

Lemma exec_unfold_forever {R T : Type} (n : nat) (body : itree picoE R)
      (sched : nat -> list A) (slot : nat) (m : machine) :
  exec act n (ITree.forever body : itree picoE T) sched slot m =
  exec act n (ITree.bind body (fun _ => Tau (ITree.forever body))) sched slot m.
Proof. apply exec_observe. reflexivity. Qed.

(** Sequencing: the continuation starts where the first part stopped. *)
Lemma exec_bind {R T : Type} (n : nat) (t : itree picoE R)
      (k : R -> itree picoE T) (sched : nat -> list A) (slot : nat) (m : machine) :
  exec act n (ITree.bind t k) sched slot m =
  match exec act n t sched slot m with
  | Done m' slot' n' r => exec act n' (k r) sched slot' m'
  | Out_of_fuel m' slot' => Out_of_fuel m' slot'
  | Fault m' slot' => Fault m' slot'
  end.
Proof.
  revert t slot m. induction n as [|n IH]; intros t slot m.
  - cbn [exec]. rewrite observe_bind.
    destruct (observe t) as [r | t' | X e h]; cbn [observe _observe]; reflexivity.
  - destruct (observe t) as [r | t' | X e h] eqn:E.
    + transitivity (exec act (S n) (k r) sched slot m).
      * apply exec_observe. rewrite observe_bind, E. reflexivity.
      * cbn [exec]. rewrite E. reflexivity.
    + cbn [exec]. rewrite observe_bind, E. cbn [observe _observe]. apply IH.
    + cbn [exec]. rewrite observe_bind, E. cbn [observe _observe].
      destruct (run_actions act (sched slot) m) as [m1|]; [|reflexivity].
      destruct (unblocked e m1); [|apply IH].
      destruct (handle e m1) as [m2 x]. apply IH.
Qed.

(** Running consumes fuel. *)
Lemma exec_done_fuel {R : Type} (n : nat) (t : itree picoE R)
      (sched : nat -> list A) (slot : nat) (m : machine) m' slot' n' r :
  exec act n t sched slot m = Done m' slot' n' r -> (n' <= n)%nat.
Proof.
  revert t slot m. induction n as [|n IH]; intros t slot m; cbn [exec];
    destruct (observe t) as [r0 | t' | X e h]; try discriminate.
  - intros H; injection H as <- <- <- <-. lia.
  - intros H; injection H as <- <- <- <-. lia.
  - intros H. apply IH in H. lia.
  - destruct (run_actions act (sched slot) m) as [m1|]; [|discriminate].
    destruct (unblocked e m1).
    + destruct (handle e m1) as [m2 x]. intros H. apply IH in H. lia.
    + intros H. apply IH in H. lia.
Qed.

(** A loop without exit has no return value, whatever the fuel. *)
Lemma exec_forever {R T : Type} (body : itree picoE R) (n : nat)
      (sched : nat -> list A) (slot : nat) (m : machine) :
  returned (exec act n (ITree.forever body : itree picoE T) sched slot m) = None.
Proof.
  revert slot m. induction n as [n IH] using lt_wf_ind. intros slot m.
  rewrite exec_unfold_forever, exec_bind.
  destruct (exec act n body sched slot m) as [m' slot' n' r | |] eqn:E;
    [|reflexivity|reflexivity].
  apply exec_done_fuel in E.
  destruct n' as [|n']; cbn [exec observe _observe]; [reflexivity|].
  apply IH. lia.
Qed.
End ExecFacts.

(** ** The hardware *)

Lemma sm_step_config (sm : Z) (m : machine) :
  same_config m (sm_step sm m) /\ irq_flags (sm_step sm m) = irq_flags m.
Proof.
  unfold sm_step, same_config.
  destruct ((0 <=? sm) && (sm <=? 3)); [|tauto].
  destruct (sm_offset m sm); [|tauto].
  destruct (tx_fifo m sm); [tauto|].
  destruct (Z.testbit (pio0_hw_irq m) sm); cbn; tauto.
Qed.

Lemma same_config_refl (m : machine) : same_config m m.
Proof. unfold same_config; tauto. Qed.

Lemma same_config_trans (m1 m2 m3 : machine) :
  same_config m1 m2 -> same_config m2 m3 -> same_config m1 m3.
Proof.
  unfold same_config.
  intros (A1 & A2 & A3 & A4 & A5 & A6) (B1 & B2 & B3 & B4 & B5 & B6).
  repeat split; congruence.
Qed.

Lemma hw_run_app (l1 l2 : list hw_action) (m : machine) :
  hw_run (l1 ++ l2) m = hw_run l2 (hw_run l1 m).
Proof. apply fold_left_app. Qed.

Lemma hw_run_config (l : list hw_action) (m : machine) :
  same_config m (hw_run l m) /\ irq_flags (hw_run l m) = irq_flags m.
Proof.
  unfold hw_run. revert m. induction l as [|[sm] l IH]; intros m; cbn [fold_left].
  - split; [apply same_config_refl | reflexivity].
  - destruct (IH (sm_step sm m)) as [C F], (sm_step_config sm m) as [C' F'].
    split; [eapply same_config_trans; eassumption | congruence].
Qed.

Lemma hw_run_irq_flags (l : list hw_action) (m : machine) :
  irq_flags (hw_run l m) = irq_flags m.
Proof. apply hw_run_config. Qed.

(** The hardware never stops the core. *)
Lemma run_actions_hw (l : list hw_action) (m : machine) :
  run_actions hw_act l m = Some (hw_run l m).
Proof.
  unfold hw_run. revert m.
  induction l as [|[sm] l IH]; intros m; cbn [run_actions hw_act fold_left];
    [reflexivity | apply IH].
Qed.

(** The hardware does not look at [irq_flags]. *)
Lemma sm_step_set_irq_flags (sm v : Z) (m : machine) :
  sm_step sm (set_irq_flags v m) = set_irq_flags v (sm_step sm m).
Proof.
  unfold sm_step. cbn.
  destruct ((0 <=? sm) && (sm <=? 3)); [|reflexivity].
  destruct (sm_offset m sm); [|reflexivity].
  destruct (tx_fifo m sm); [reflexivity|].
  destruct (Z.testbit (pio0_hw_irq m) sm); reflexivity.
Qed.

Lemma hw_run_set_irq_flags (l : list hw_action) (v : Z) (m : machine) :
  hw_run l (set_irq_flags v m) = set_irq_flags v (hw_run l m).
Proof.
  unfold hw_run. revert m.
  induction l as [|[sm] l IH]; intros m; cbn [fold_left]; [reflexivity|].
  rewrite sm_step_set_irq_flags. apply IH.
Qed.

(** ** Stepping through straight-line code *)

Section Stepping.
Context {A : Type} (act : A -> machine -> option machine).

Lemma exec_trigger_bind {X R : Type} (n : nat) (e : picoE X)
      (k : X -> itree picoE R) (sched : nat -> list A) (slot : nat) (m : machine) :
  exec act (S n) (ITree.bind (ITree.trigger e) k) sched slot m =
  match run_actions act (sched slot) m with
  | None => Fault m slot
  | Some m1 =>
      if unblocked e m1 then
        exec act n (k (snd (handle e m1))) sched (S slot) (fst (handle e m1))
      else exec act n (ITree.bind (ITree.trigger e) k) sched (S slot) m1
  end.
Proof.
  cbn [exec]. rewrite observe_bind. cbn [observe _observe ITree.trigger].
  destruct (run_actions act (sched slot) m) as [m1|]; [|reflexivity].
  destruct (unblocked e m1); [|reflexivity].
  destruct (handle e m1) as [m2 x]. cbn [fst snd].
  apply exec_observe. reflexivity.
Qed.

Lemma exec_trigger {X : Type} (n : nat) (e : picoE X)
      (sched : nat -> list A) (slot : nat) (m : machine) :
  exec act (S n) (ITree.trigger e) sched slot m =
  match run_actions act (sched slot) m with
  | None => Fault m slot
  | Some m1 =>
      if unblocked e m1 then Done (fst (handle e m1)) (S slot) n (snd (handle e m1))
      else exec act n (ITree.trigger e) sched (S slot) m1
  end.
Proof.
  cbn [exec observe _observe ITree.trigger].
  destruct (run_actions act (sched slot) m) as [m1|]; [|reflexivity].
  destruct (unblocked e m1); [|reflexivity].
  destruct (handle e m1) as [m2 x]. destruct n; reflexivity.
Qed.

Lemma exec_if_then_nothing {R : Type} (n : nat) (c : Z)
      (k : unit -> itree picoE R) (sched : nat -> list A) (slot : nat) (m : machine) :
  exec act n (ITree.bind (if_then_nothing c) k) sched slot m =
  exec act n (k tt) sched slot m.
Proof.
  unfold if_then_nothing. destruct (c =? 0); apply exec_observe; reflexivity.
Qed.
End Stepping.

(** ** The interrupt handler *)

(** The handler always runs to its end within [isr_fuel]; its result, with
    the hardware going on between its accesses. *)
Lemma simply_isr_handler_exec (during : nat -> list hw_action) (m : machine) :
  let m0 := hw_run (during 0%nat) m in
  let m3 := hw_run (during 1%nat ++ during 2%nat ++ during 3%nat) m0 in
  exec hw_act isr_fuel simply_isr_handler during 0 m =
  Done (set_pio0_hw_irq (Z.land (pio0_hw_irq m3) (Z.lnot (pio0_hw_irq m0)))
                        (set_irq_flags (pio0_hw_irq m0) m3))
       4 0 tt.
Proof.
  intros m0 m3. subst m0 m3.
  unfold simply_isr_handler, isr_fuel, load_pio0_hw_irq, store_irq_flags,
    load_irq_flags, hw_clear_bits_pio0_hw_irq.
  repeat (rewrite exec_trigger_bind, run_actions_hw; cbv beta; cbn [unblocked]).
  rewrite exec_trigger, run_actions_hw.
  cbn [unblocked handle fst snd].
  rewrite !hw_run_app, !hw_run_set_irq_flags.
  cbn [irq_flags set_irq_flags pio0_hw_irq]. reflexivity.
Qed.

Lemma isr_run_exec (during : nat -> list hw_action) (m : machine) :
  exec hw_act isr_fuel simply_isr_handler during 0 m = Done (isr_run during m) 4 0 tt.
Proof.
  unfold isr_run. pose proof (simply_isr_handler_exec during m) as E.
  cbv zeta in E. rewrite E. reflexivity.
Qed.

Lemma isr_run_eq (during : nat -> list hw_action) (m : machine) :
  let m0 := hw_run (during 0%nat) m in
  let m3 := hw_run (during 1%nat ++ during 2%nat ++ during 3%nat) m0 in
  isr_run during m =
  set_pio0_hw_irq (Z.land (pio0_hw_irq m3) (Z.lnot (pio0_hw_irq m0)))
                  (set_irq_flags (pio0_hw_irq m0) m3).
Proof.
  intros m0 m3. unfold isr_run. pose proof (simply_isr_handler_exec during m) as E.
  cbv zeta in E. rewrite E. reflexivity.
Qed.

Lemma isr_run_irq_flags (during : nat -> list hw_action) (m : machine) :
  irq_flags (isr_run during m) = pio0_hw_irq (hw_run (during 0%nat) m).
Proof. pose proof (isr_run_eq during m) as E. cbv zeta in E. rewrite E. reflexivity. Qed.

Lemma isr_run_pio0_hw_irq (during : nat -> list hw_action) (m : machine) :
  pio0_hw_irq (isr_run during m) =
  Z.land (pio0_hw_irq (hw_run (during 0%nat ++ during 1%nat ++ during 2%nat ++ during 3%nat) m))
         (Z.lnot (irq_flags (isr_run during m))).
Proof.
  rewrite isr_run_irq_flags.
  pose proof (isr_run_eq during m) as E. cbv zeta in E. rewrite E.
  cbn [pio0_hw_irq set_pio0_hw_irq]. rewrite <- hw_run_app. reflexivity.
Qed.

Lemma isr_run_config (during : nat -> list hw_action) (m : machine) :
  same_config m (isr_run during m).
Proof.
  pose proof (isr_run_eq during m) as E. cbv zeta in E. rewrite E.
  eapply same_config_trans; [apply (hw_run_config (during 0%nat))|].
  eapply same_config_trans; [apply (hw_run_config (during 1%nat ++ during 2%nat ++ during 3%nat))|].
  unfold same_config; cbn; tauto.
Qed.

(** C2: after the handler has run, every flag that was set in the status
    value it read is clear in the hardware register: the handler recorded
    that value in [irq_flags] and cleared exactly its bits in the register,
    as the hardware had left it by then. *)
Theorem handler_ack_clears_serviced
        (during : nat -> list hw_action) (m : machine) (k : Z) :
  Z.testbit (pio0_hw_irq (hw_run (during 0%nat) m)) k = true ->
  exec hw_act isr_fuel simply_isr_handler during 0 m = Done (isr_run during m) 4 0 tt /\
  irq_flags (isr_run during m) = pio0_hw_irq (hw_run (during 0%nat) m) /\
  pio0_hw_irq (isr_run during m) =
    Z.land (pio0_hw_irq
              (hw_run (during 0%nat ++ during 1%nat ++ during 2%nat ++ during 3%nat) m))
           (Z.lnot (pio0_hw_irq (hw_run (during 0%nat) m))) /\
  Z.testbit (pio0_hw_irq (isr_run during m)) k = false.
Proof.
  intros Hk. split; [apply isr_run_exec|]. split; [apply isr_run_irq_flags|].
  split; [rewrite isr_run_pio0_hw_irq, isr_run_irq_flags; reflexivity|].
  rewrite isr_run_pio0_hw_irq, isr_run_irq_flags.
  assert (0 <= k) by (destruct k; try lia; discriminate Hk).
  rewrite Z.land_spec, Z.lnot_spec, Hk by assumption.
  apply andb_false_r.
Qed.

(** C10: a flag outside the snapshot just recorded in [irq_flags] is not
    touched by the acknowledgment: after the handler it has the value the
    hardware alone gave it, and with idle hardware the value it had when
    the handler started. *)
Theorem handler_ack_keeps_other_flags
        (during : nat -> list hw_action) (m : machine) (k : Z) :
  Z.testbit (irq_flags (isr_run during m)) k = false ->
  exec hw_act isr_fuel simply_isr_handler during 0 m = Done (isr_run during m) 4 0 tt /\
  Z.testbit (pio0_hw_irq (isr_run during m)) k =
  Z.testbit (pio0_hw_irq
               (hw_run (during 0%nat ++ during 1%nat ++ during 2%nat ++ during 3%nat) m)) k /\
  (during = quiet ->
   Z.testbit (pio0_hw_irq (isr_run during m)) k = Z.testbit (pio0_hw_irq m) k).
Proof.
  intros Hk. split; [apply isr_run_exec|].
  assert (E : Z.testbit (pio0_hw_irq (isr_run during m)) k =
              Z.testbit (pio0_hw_irq
                (hw_run (during 0%nat ++ during 1%nat ++ during 2%nat ++ during 3%nat) m)) k).
  { rewrite isr_run_pio0_hw_irq.
    destruct (Z.ltb_spec k 0) as [Hneg|Hpos].
    - rewrite !Z.testbit_neg_r by assumption. reflexivity.
    - rewrite Z.land_spec, Z.lnot_spec, Hk by assumption. apply andb_true_r. }
  split; [exact E|].
  intros ->. rewrite E. reflexivity.
Qed.

(** C3: the handler overwrites [irq_flags].  Whatever [irq_flags] held,
    after the handler it holds the status value just read; when two
    interrupts are serviced in a row the second value replaces the first,
    and a flag reported only by the first is lost, not merged. *)
Theorem handler_overwrites_flags
        (d1 d2 : nat -> list hw_action) (between : list hw_action)
        (prior : Z) (m : machine) :
  let m1 := isr_run d1 (set_irq_flags prior m) in
  let m2 := isr_run d2 (hw_run between m1) in
  irq_flags m1 = pio0_hw_irq (hw_run (d1 0%nat) m) /\
  exec hw_act isr_fuel simply_isr_handler d2 0 (hw_run between m1) = Done m2 4 0 tt /\
  irq_flags m2 = pio0_hw_irq (hw_run (d2 0%nat) (hw_run between m1)) /\
  (forall k : Z,
      Z.testbit (irq_flags m1) k = true ->
      Z.testbit (pio0_hw_irq (hw_run (d2 0%nat) (hw_run between m1))) k = false ->
      Z.testbit (irq_flags m2) k = false /\
      irq_flags m2 <> Z.lor (irq_flags m1) (irq_flags m2)).
Proof.
  intros m1 m2. subst m1 m2.
  split.
  { rewrite isr_run_irq_flags, hw_run_set_irq_flags. reflexivity. }
  split; [apply isr_run_exec|].
  split; [apply isr_run_irq_flags|].
  intros k H1 H2. rewrite (isr_run_irq_flags d2). split; [exact H2|].
  intros E. apply (f_equal (fun z => Z.testbit z k)) in E.
  rewrite Z.lor_spec, H1, H2 in E. discriminate E.
Qed.

(** ** The environment of the main thread *)

Lemma take_irq_eq (during : nat -> list hw_action) (m : machine) :
  take_irq during m =
  if irq_enabled m && line_asserted m then
    match vector m with
    | Some fn_simply_isr_handler => Some (isr_run during m)
    | None => None
    end
  else Some m.
Proof.
  unfold take_irq. destruct (irq_enabled m && line_asserted m); [|reflexivity].
  destruct (vector m) as [[]|]; [|reflexivity].
  cbn [fn_body]. rewrite isr_run_exec. reflexivity.
Qed.

Lemma env_act_config (a : env_action) (m m' : machine) :
  env_act a m = Some m' -> same_config m m'.
Proof.
  destruct a as [[sm]|during]; cbn [env_act hw_act].
  - intros H; injection H as <-. apply sm_step_config.
  - rewrite take_irq_eq. destruct (irq_enabled m && line_asserted m).
    + destruct (vector m) as [[]|]; [|discriminate].
      intros H; injection H as <-. apply isr_run_config.
    + intros H; injection H as <-. apply same_config_refl.
Qed.

Lemma run_actions_env_config (l : list env_action) (m m' : machine) :
  run_actions env_act l m = Some m' -> same_config m m'.
Proof.
  revert m. induction l as [|a l IH]; intros m; cbn [run_actions].
  - intros H; injection H as <-. apply same_config_refl.
  - destruct (env_act a m) as [m1|] eqn:E; [|discriminate].
    intros H. eapply same_config_trans; [eapply env_act_config; eassumption | auto].
Qed.

Lemma env_after_config (l : list env_action) (m : machine) :
  same_config m (env_after l m).
Proof.
  unfold env_after. destruct (run_actions env_act l m) eqn:E.
  - eapply run_actions_env_config; eassumption.
  - apply same_config_refl.
Qed.

Lemma handled_config (m m' : machine) : same_config m m' -> handled m -> handled m'.
Proof. unfold handled. intros (_ & V & I & _) H. rewrite V, I. exact H. Qed.

(** With a handler installed whenever the interrupt is enabled, nothing
    the environment does stops the core. *)
Lemma env_total (l : list env_action) (m : machine) :
  handled m -> exists m', run_actions env_act l m = Some m'.
Proof.
  revert m. induction l as [|a l IH]; intros m H; cbn [run_actions].
  - eexists; reflexivity.
  - destruct (env_act a m) as [m1|] eqn:E.
    + apply IH. eapply handled_config; [eapply env_act_config; eassumption | exact H].
    + exfalso. destruct a as [[sm]|during]; cbn [env_act hw_act] in E; [discriminate|].
      rewrite take_irq_eq in E. unfold handled in H.
      destruct (irq_enabled m); cbn [andb] in E; [|discriminate].
      rewrite (H eq_refl) in E. destruct (line_asserted m); discriminate.
Qed.

Lemma env_handled (l : list env_action) (m : machine) :
  handled m -> run_actions env_act l m = Some (env_after l m).
Proof.
  intros H. unfold env_after. destruct (env_total l m H) as [m' E].
  rewrite E. reflexivity.
Qed.

Lemma calls_env_after l m : calls (env_after l m) = calls m.
Proof. apply env_after_config. Qed.

Lemma vector_env_after l m : vector (env_after l m) = vector m.
Proof. apply env_after_config. Qed.

Lemma irq_enabled_env_after l m : irq_enabled (env_after l m) = irq_enabled m.
Proof. apply env_after_config. Qed.

Lemma sm_offset_env_after l m : sm_offset (env_after l m) = sm_offset m.
Proof. apply env_after_config. Qed.

Lemma add_program_offset_env_after l m :
  add_program_offset (env_after l m) = add_program_offset m.
Proof. apply env_after_config. Qed.

Lemma tx_depth_env_after l m : tx_depth (env_after l m) = tx_depth m.
Proof. apply env_after_config. Qed.

Lemma handled_env_after l m : handled m -> handled (env_after l m).
Proof. apply handled_config, env_after_config. Qed.

Lemma handled_log c m : handled m -> handled (log c m).
Proof. exact (fun H => H). Qed.

Lemma handled_set_irq_flags v m : handled m -> handled (set_irq_flags v m).
Proof. exact (fun H => H). Qed.

Lemma handled_set_tx_fifo sm q m : handled m -> handled (set_tx_fifo sm q m).
Proof. exact (fun H => H). Qed.

Lemma handled_set_sm_offset sm o m : handled m -> handled (set_sm_offset sm o m).
Proof. exact (fun H => H). Qed.

Lemma handled_set_vector m : handled (set_vector fn_simply_isr_handler m).
Proof. intros _. reflexivity. Qed.

Lemma handled_set_irq_enabled m :
  vector m = Some fn_simply_isr_handler -> handled (set_irq_enabled true m).
Proof. intros V _. exact V. Qed.

Create HintDb pico discriminated.
Create Rewrite HintDb pico_env.
#[local] Hint Resolve handled_env_after handled_log handled_set_irq_flags
  handled_set_tx_fifo handled_set_sm_offset handled_set_vector : pico.

#[local] Hint Rewrite calls_env_after vector_env_after irq_enabled_env_after
  sm_offset_env_after add_program_offset_env_after tx_depth_env_after : pico_env.

(** One access of the main thread, the environment's turn included. *)
Ltac main_step :=
  rewrite exec_trigger_bind, env_handled by auto 20 with pico;
  cbv beta; cbn [unblocked handle fst snd].

Ltac main_last_step :=
  rewrite exec_trigger, env_handled by auto 20 with pico;
  cbn [unblocked handle fst snd].

Ltac unfold_calls :=
  unfold stdio_init_all, printf, pio_add_program, simply_isr_program_init,
    irq_set_exclusive_handler, irq_set_enabled, pio_sm_put_blocking, sleep_ms,
    load_irq_flags, store_irq_flags, load_pio0_hw_irq, hw_clear_bits_pio0_hw_irq.

(** Read a field through the updates and the environment's turns. *)
Ltac field_simpl :=
  repeat first
    [ progress (cbn [calls log set_irq_flags set_tx_fifo set_sm_offset
                     set_vector set_irq_enabled set_pio0_hw_irq
                     irq_flags vector irq_enabled sm_offset add_program_offset
                   tx_depth])
    | progress (autorewrite with pico_env) ].

(** ** Idle states *)

(** With every queue empty the state machines stand still. *)
Lemma sm_step_empty (sm : Z) (m : machine) :
  tx_fifo m sm = [] -> sm_step sm m = m.
Proof.
  intros E. unfold sm_step. rewrite E.
  destruct ((0 <=? sm) && (sm <=? 3)); [|reflexivity].
  destruct (sm_offset m sm); reflexivity.
Qed.

Lemma hw_run_empty (l : list hw_action) (m : machine) :
  (forall j, tx_fifo m j = []) -> hw_run l m = m.
Proof.
  intros E. unfold hw_run. induction l as [|[sm] l IH]; cbn [fold_left]; [reflexivity|].
  rewrite sm_step_empty by apply E. exact IH.
Qed.

Lemma env_act_idle (a : env_action) (m : machine) : idle m -> env_act a m = Some m.
Proof.
  intros [P Q]. destruct a as [[sm]|during]; cbn [env_act hw_act].
  - rewrite sm_step_empty by apply Q. reflexivity.
  - unfold take_irq, line_asserted. rewrite P. cbn. rewrite andb_false_r. reflexivity.
Qed.

Lemma run_actions_idle (l : list env_action) (m : machine) :
  idle m -> run_actions env_act l m = Some m.
Proof.
  intros H. induction l as [|a l IH]; cbn [run_actions]; [reflexivity|].
  rewrite env_act_idle by exact H. exact IH.
Qed.

Lemma env_after_idle (l : list env_action) (m : machine) : idle m -> env_after l m = m.
Proof. intros H. unfold env_after. rewrite run_actions_idle by exact H. reflexivity. Qed.

Lemma idle_env_after l m : idle m -> idle (env_after l m).
Proof. intros H. rewrite env_after_idle; exact H. Qed.

Lemma idle_log c m : idle m -> idle (log c m).
Proof. exact (fun H => H). Qed.

Lemma idle_set_irq_flags v m : idle m -> idle (set_irq_flags v m).
Proof. exact (fun H => H). Qed.

Lemma idle_set_sm_offset sm o m : idle m -> idle (set_sm_offset sm o m).
Proof. exact (fun H => H). Qed.

Lemma idle_set_vector h m : idle m -> idle (set_vector h m).
Proof. exact (fun H => H). Qed.

Lemma idle_set_irq_enabled b m : idle m -> idle (set_irq_enabled b m).
Proof. exact (fun H => H). Qed.

#[local] Hint Resolve idle_env_after idle_log idle_set_irq_flags idle_set_sm_offset
  idle_set_vector idle_set_irq_enabled : pico.

(** ** Room in the queues *)

(** The environment only takes words out of the queues. *)
Lemma sm_step_fifo (j sm : Z) (m : machine) :
  (List.length (tx_fifo (sm_step j m) sm) <= List.length (tx_fifo m sm))%nat.
Proof.
  unfold sm_step.
  destruct ((0 <=? j) && (j <=? 3)); [|lia].
  destruct (sm_offset m j); [|lia].
  destruct (tx_fifo m j) as [|w rest] eqn:E; [lia|].
  destruct (Z.testbit (pio0_hw_irq m) j); [lia|].
  cbn [tx_fifo set_pio0_hw_irq set_tx_fifo].
  destruct (Z.eqb_spec sm j) as [->|]; [rewrite E; cbn [List.length]|]; lia.
Qed.

Lemma hw_run_fifo (l : list hw_action) (sm : Z) (m : machine) :
  (List.length (tx_fifo (hw_run l m) sm) <= List.length (tx_fifo m sm))%nat.
Proof.
  unfold hw_run. revert m. induction l as [|[j] l IH]; intros m; cbn [fold_left]; [lia|].
  specialize (IH (sm_step j m)). pose proof (sm_step_fifo j sm m). lia.
Qed.

Lemma isr_run_fifo (during : nat -> list hw_action) (sm : Z) (m : machine) :
  (List.length (tx_fifo (isr_run during m) sm) <= List.length (tx_fifo m sm))%nat.
Proof.
  pose proof (isr_run_eq during m) as E. cbv zeta in E. rewrite E.
  cbn [tx_fifo set_pio0_hw_irq set_irq_flags].
  pose proof (hw_run_fifo (during 1%nat ++ during 2%nat ++ during 3%nat) sm
                          (hw_run (during 0%nat) m)).
  pose proof (hw_run_fifo (during 0%nat) sm m). lia.
Qed.

Lemma env_act_fifo (a : env_action) (sm : Z) (m m' : machine) :
  env_act a m = Some m' ->
  (List.length (tx_fifo m' sm) <= List.length (tx_fifo m sm))%nat.
Proof.
  destruct a as [[j]|during]; cbn [env_act hw_act].
  - intros H; injection H as <-. apply sm_step_fifo.
  - rewrite take_irq_eq. destruct (irq_enabled m && line_asserted m).
    + destruct (vector m) as [[]|]; [|discriminate].
      intros H; injection H as <-. apply isr_run_fifo.
    + intros H; injection H as <-. lia.
Qed.

Lemma env_after_fifo (l : list env_action) (sm : Z) (m : machine) :
  (List.length (tx_fifo (env_after l m) sm) <= List.length (tx_fifo m sm))%nat.
Proof.
  unfold env_after. revert m. induction l as [|a l IH]; intros m; cbn [run_actions]; [lia|].
  destruct (env_act a m) as [m1|] eqn:E; [|lia].
  specialize (IH m1). pose proof (env_act_fifo a sm m m1 E).
  destruct (run_actions env_act l m1); lia.
Qed.

Lemma room_env_after l sm m : room sm m -> room sm (env_after l m).
Proof.
  unfold room. rewrite tx_depth_env_after.
  pose proof (env_after_fifo l sm m). lia.
Qed.

Lemma room_log c sm m : room sm m -> room sm (log c m).
Proof. exact (fun H => H). Qed.

Lemma room_set_irq_flags v sm m : room sm m -> room sm (set_irq_flags v m).
Proof. exact (fun H => H). Qed.

Lemma room_set_tx_fifo_other j q sm m :
  sm <> j -> room sm m -> room sm (set_tx_fifo j q m).
Proof.
  unfold room. cbn [tx_fifo tx_depth set_tx_fifo]. intros Hj.
  destruct (Z.eqb_spec sm j); [contradiction | exact (fun H => H)].
Qed.

Lemma room_unblocked sm m :
  room sm m -> (List.length (tx_fifo m sm) <? tx_depth m)%nat = true.
Proof. intros H. apply Nat.ltb_lt. exact H. Qed.

#[local] Hint Resolve room_env_after room_log room_set_irq_flags
  room_set_tx_fifo_other : pico.

(** ** [trigger_isr] under any schedule *)

Lemma trigger_isr_any (sched : schedule) (slot : nat) (m : machine) (sm : Z) (n : nat) :
  handled m -> room sm m ->
  exists (m' : machine) (actual : Z),
    exec env_act (10 + n) (trigger_isr sm) sched slot m = Done m' (10 + slot) n tt /\
    calls m' = (calls m ++
      [call_printf ("Triggering ISR from state machine " ++ fmt_d sm ++ LF);
       call_pio_sm_put_blocking sm 1;
       call_printf ("Expected IRQ flags: 0x" ++ fmt_08X (shl1 sm) ++ LF);
       call_printf ("Actual IRQ Flags: 0x" ++ fmt_08X actual ++ LF)])%list /\
    irq_flags m' = 0 /\
    vector m' = vector m /\ irq_enabled m' = irq_enabled m /\
    tx_depth m' = tx_depth m /\
    (forall j : Z, j <> sm -> room j m -> room j m').
Proof.
  intros H Hroom. unfold trigger_isr. unfold_calls.
  cbn [Nat.add].
  main_step. main_step. rewrite room_unblocked by auto 20 with pico.
  do 2 main_step.
  do 5 (main_step; try rewrite exec_if_then_nothing).
  main_last_step.
  eexists _, _. split; [reflexivity|].
  split; [field_simpl; rewrite <- !app_assoc; cbn [app]; reflexivity|].
  split; [reflexivity|]. split; [field_simpl; reflexivity|].
  split; [field_simpl; reflexivity|]. split; [field_simpl; reflexivity|].
  intros j Hj Hr. auto 30 with pico.
Qed.

(** ** Invariants along a run *)

Lemma keeps_ret (I : machine -> Prop) {R : Type} (r : R) : keeps I (Ret r : itree picoE R).
Proof. intros [|fuel] sched slot m H; exact H. Qed.

Lemma keeps_bind (I : machine -> Prop) {R T : Type}
      (t : itree picoE R) (k : R -> itree picoE T) :
  keeps I t -> (forall r, keeps I (k r)) -> keeps I (ITree.bind t k).
Proof.
  intros Ht Hk fuel sched slot m H. rewrite exec_bind.
  specialize (Ht fuel sched slot m H).
  destruct (exec env_act fuel t sched slot m) as [m' slot' n' r | m' slot' | m' slot'].
  - apply Hk. exact Ht.
  - exact Ht.
  - exact Ht.
Qed.

Lemma keeps_forever (I : machine -> Prop) {R T : Type} (body : itree picoE R) :
  keeps I body -> keeps I (ITree.forever body : itree picoE T).
Proof.
  intros Hb fuel. induction fuel as [fuel IH] using lt_wf_ind. intros sched slot m H.
  rewrite exec_unfold_forever, exec_bind. specialize (Hb fuel sched slot m H).
  destruct (exec env_act fuel body sched slot m) as [m' slot' n' r | m' slot' | m' slot'] eqn:E;
    [|exact Hb|exact Hb].
  apply exec_done_fuel in E.
  destruct n' as [|n']; cbn [exec observe _observe]; [exact Hb|].
  apply IH; [lia | exact Hb].
Qed.

Lemma keeps_handled_trigger {X : Type} (e : picoE X) :
  (forall m, handled m -> handled (fst (handle e m))) ->
  keeps handled (ITree.trigger e).
Proof.
  intros He fuel. induction fuel as [|fuel IH]; intros sched slot m H; [exact H|].
  rewrite exec_trigger, env_handled by assumption.
  destruct (unblocked e (env_after (sched slot) m)).
  - cbn [machine_of]. apply He. auto with pico.
  - apply IH. auto with pico.
Qed.

Lemma keeps_if_then_nothing (I : machine -> Prop) (c : Z) : keeps I (if_then_nothing c).
Proof. unfold if_then_nothing. destruct (c =? 0); apply keeps_ret. Qed.

Ltac keeps_handled :=
  repeat first
    [ apply keeps_bind; [|intros ?]
    | apply keeps_if_then_nothing
    | apply keeps_handled_trigger; intros ? ?; cbn [handle fst]; auto with pico ].

Lemma keeps_handled_trigger_isr (sm : Z) : keeps handled (trigger_isr sm).
Proof. unfold trigger_isr. unfold_calls. keeps_handled. Qed.

Lemma keeps_handled_main_loop_body : keeps handled main_loop_body.
Proof.
  unfold main_loop_body.
  repeat first [ apply keeps_bind; [|intros ?] | apply keeps_handled_trigger_isr ].
  all: unfold_calls; keeps_handled.
Qed.

Lemma keeps_handled_load_pio_programs : keeps handled load_pio_programs.
Proof. unfold load_pio_programs. unfold_calls. keeps_handled. Qed.

(** [enable_pio_isrs] enables the interrupt only after the handler is in
    place, so the invariant holds at each of its points. *)
Lemma keeps_handled_enable_pio_isrs : keeps handled enable_pio_isrs.
Proof.
  unfold enable_pio_isrs. unfold_calls.
  intros fuel sched slot m H.
  destruct fuel as [|fuel]; [exact H|].
  main_step.
  destruct fuel as [|fuel];
    [cbn [exec observe _observe ITree.trigger machine_of]; auto with pico|].
  main_last_step. cbn [machine_of]. apply handled_log, handled_set_irq_enabled.
  field_simpl. reflexivity.
Qed.

Lemma keeps_handled_main : keeps handled main.
Proof.
  unfold main.
  apply keeps_bind; [unfold_calls; keeps_handled | intros _].
  apply keeps_bind; [apply keeps_handled_load_pio_programs | intros _].
  apply keeps_bind; [apply keeps_handled_enable_pio_isrs | intros _].
  apply keeps_forever, keeps_handled_main_loop_body.
Qed.

(** ** What holds whenever a run returns *)

Lemma returns_ret {R : Type} (r : R) (Q : machine -> R -> Prop) (m : machine) :
  Q m r -> returns (Ret r) Q m.
Proof. intros H [|fuel] sched slot; exact H. Qed.

Lemma returns_bind {R T : Type} (t : itree picoE R) (k : R -> itree picoE T)
      (Q : machine -> T -> Prop) (m : machine) :
  returns t (fun m' r => returns (k r) Q m') m -> returns (ITree.bind t k) Q m.
Proof.
  intros H fuel sched slot. rewrite exec_bind. specialize (H fuel sched slot).
  destruct (exec env_act fuel t sched slot m) as [m' slot' n' r | |]; [|exact I|exact I].
  apply H.
Qed.

Lemma returns_weaken {R : Type} (t : itree picoE R)
      (Q Q' : machine -> R -> Prop) (m : machine) :
  (forall m' r, Q m' r -> Q' m' r) -> returns t Q m -> returns t Q' m.
Proof.
  intros W H fuel sched slot. specialize (H fuel sched slot).
  destruct (exec env_act fuel t sched slot m); [apply W; exact H | exact I | exact I].
Qed.

(** A call or access happens after the environment has had its turns,
    however many these are when the call has to wait. *)
Lemma returns_trigger {X : Type} (e : picoE X) (Q : machine -> X -> Prop) (m : machine) :
  (forall m1, same_config m m1 -> Q (fst (handle e m1)) (snd (handle e m1))) ->
  returns (ITree.trigger e) Q m.
Proof.
  intros H fuel. revert m H. induction fuel as [|fuel IH]; intros m H sched slot.
  - exact I.
  - rewrite exec_trigger.
    destruct (run_actions env_act (sched slot) m) as [m1|] eqn:E; [|exact I].
    apply run_actions_env_config in E.
    destruct (unblocked e m1).
    + apply H. exact E.
    + apply IH. intros m2 E2. apply H. eapply same_config_trans; eassumption.
Qed.

Lemma returns_if_then_nothing (c : Z) (Q : machine -> unit -> Prop) (m : machine) :
  Q m tt -> returns (if_then_nothing c) Q m.
Proof. unfold if_then_nothing. destruct (c =? 0); apply returns_ret. Qed.

Ltac returns_step :=
  first
    [ apply returns_bind; apply returns_trigger; intros ? ?; cbn [handle fst snd]
    | apply returns_bind; apply returns_if_then_nothing
    | apply returns_trigger; intros ? ?; cbn [handle fst snd] ].

(** Collect what the calls of the successive states are. *)
Ltac chain_calls :=
  repeat match goal with
         | H : same_config _ _ |- _ =>
             let C := fresh "C" in destruct H as (C & _); cbn [calls log set_irq_flags
               set_tx_fifo set_sm_offset set_vector set_irq_enabled] in C
         end;
  cbn [calls log set_irq_flags set_tx_fifo set_sm_offset set_vector set_irq_enabled];
  repeat match goal with
         | C : calls _ = _ |- _ => rewrite C; clear C
         end;
  rewrite <- ?app_assoc; cbn [app].

Lemma trigger_isr_returns (sm : Z) (m : machine) :
  returns (trigger_isr sm)
    (fun m' _ =>
       irq_flags m' = 0 /\
       exists actual : Z,
         calls m' = (calls m ++
           [call_printf ("Triggering ISR from state machine " ++ fmt_d sm ++ LF);
            call_pio_sm_put_blocking sm 1;
            call_printf ("Expected IRQ flags: 0x" ++ fmt_08X (shl1 sm) ++ LF);
            call_printf ("Actual IRQ Flags: 0x" ++ fmt_08X actual ++ LF)])%list) m.
Proof.
  unfold trigger_isr. unfold_calls.
  do 13 returns_step. returns_step.
  split; [reflexivity|]. eexists. chain_calls. reflexivity.
Qed.

(** ** Projections of the call log *)


Lemma pacing_app (l1 l2 : list call) : pacing (l1 ++ l2) = (pacing l1 ++ pacing l2)%list.
Proof.
  induction l1 as [|c l1 IH]; [reflexivity|].
  destruct c; cbn [pacing app]; rewrite ?IH; reflexivity.
Qed.

Lemma console_app (l1 l2 : list call) : console (l1 ++ l2) = (console l1 ++ console l2)%list.
Proof.
  induction l1 as [|c l1 IH]; [reflexivity|].
  destruct c; cbn [console app]; rewrite ?IH; reflexivity.
Qed.

Lemma words_to_app (sm : Z) (l1 l2 : list pace) :
  words_to sm (l1 ++ l2) = (words_to sm l1 ++ words_to sm l2)%list.
Proof.
  induction l1 as [|[sm' d|ms] l1 IH]; cbn [words_to app]; [reflexivity| |exact IH].
  destruct (sm' =? sm); cbn [app]; rewrite IH; reflexivity.
Qed.

Lemma main_loop_body_returns (m : machine) :
  returns main_loop_body
    (fun m' _ => pacing (calls m') = (pacing (calls m) ++ one_cycle)%list) m.
Proof.
  unfold main_loop_body, sleep_ms.
  apply returns_bind.
  eapply returns_weaken; [|apply trigger_isr_returns]. intros m0 _ (_ & a0 & C0).
  apply returns_bind, returns_trigger. intros m0' S0. cbn [handle fst snd].
  apply returns_bind.
  eapply returns_weaken; [|apply trigger_isr_returns]. intros m1 _ (_ & a1 & C1).
  apply returns_bind, returns_trigger. intros m1' S1. cbn [handle fst snd].
  apply returns_bind.
  eapply returns_weaken; [|apply trigger_isr_returns]. intros m2 _ (_ & a2 & C2).
  apply returns_bind, returns_trigger. intros m2' S2. cbn [handle fst snd].
  apply returns_bind.
  eapply returns_weaken; [|apply trigger_isr_returns]. intros m3 _ (_ & a3 & C3).
  apply returns_trigger. intros m3' S3. cbn [handle fst snd].
  destruct S3 as (S3 & _), S2 as (S2 & _), S1 as (S1 & _), S0 as (S0 & _).
  cbn [calls log] in *.
  rewrite S3, C3, S2, C2, S1, C1, S0, C0.
  rewrite !pacing_app. cbn [pacing]. unfold one_cycle.
  rewrite <- !app_assoc. reflexivity.
Qed.

Lemma load_pio_programs_returns (m : machine) :
  returns load_pio_programs
    (fun m' _ =>
       calls m' =
         (calls m ++
          [call_pio_add_program (add_program_offset m);
           call_simply_isr_program_init 0 (add_program_offset m);
           call_simply_isr_program_init 1 (add_program_offset m);
           call_simply_isr_program_init 2 (add_program_offset m);
           call_simply_isr_program_init 3 (add_program_offset m)])%list) m.
Proof.
  unfold load_pio_programs. unfold_calls. cbv zeta.
  do 5 returns_step.
  match goal with
  | H : same_config m ?m1 |- _ =>
      let O := fresh "O" in
      assert (O : add_program_offset m1 = add_program_offset m) by apply H
  end.
  chain_calls. rewrite !O. reflexivity.
Qed.

(** ** One turn of the loop under any schedule *)

Lemma handled_same (m m' : machine) :
  vector m' = vector m -> irq_enabled m' = irq_enabled m -> handled m -> handled m'.
Proof. unfold handled. intros -> ->. exact (fun H => H). Qed.

Lemma main_loop_body_any (sched : schedule) (slot : nat) (m : machine) (n : nat) :
  handled m ->
  (forall j : Z, 0 <= j <= 3 -> room j m) ->
  exists m' : machine,
    exec env_act (44 + n) main_loop_body sched slot m = Done m' (44 + slot) n tt /\
    pacing (calls m') = (pacing (calls m) ++ one_cycle)%list /\
    vector m' = vector m /\ irq_enabled m' = irq_enabled m /\
    tx_depth m' = tx_depth m.
Proof.
  intros H Hroom. unfold main_loop_body, sleep_ms.
  assert (R0 : room 0 m) by (apply Hroom; lia).
  assert (R1 : room 1 m) by (apply Hroom; lia).
  assert (R2 : room 2 m) by (apply Hroom; lia).
  assert (R3 : room 3 m) by (apply Hroom; lia).
  (* trigger_isr 0; sleep *)
  rewrite exec_bind. change (44 + n)%nat with (10 + S (33 + n))%nat.
  destruct (trigger_isr_any sched slot m 0 (S (33 + n)) H R0)
    as (m0 & a0 & E0 & C0 & _ & V0 & I0 & D0 & K0).
  rewrite E0. assert (H0 : handled m0) by (eapply handled_same; eassumption).
  cbv beta. main_step.
  (* trigger_isr 1; sleep *)
  rewrite exec_bind. change (33 + n)%nat with (10 + S (22 + n))%nat.
  match goal with |- context [exec env_act _ (trigger_isr 1) sched ?s ?mm] =>
    destruct (trigger_isr_any sched s mm 1 (S (22 + n)))
      as (m1 & a1 & E1 & C1 & _ & V1 & I1 & D1 & K1);
      [auto with pico | apply room_log, room_env_after, K0; [lia | exact R1] |] end.
  rewrite E1. assert (H1 : handled m1).
  { eapply handled_same; [exact V1 | exact I1 | auto with pico]. }
  cbv beta. main_step.
  (* trigger_isr 2; sleep *)
  rewrite exec_bind. change (22 + n)%nat with (10 + S (11 + n))%nat.
  match goal with |- context [exec env_act _ (trigger_isr 2) sched ?s ?mm] =>
    destruct (trigger_isr_any sched s mm 2 (S (11 + n)))
      as (m2 & a2 & E2 & C2 & _ & V2 & I2 & D2 & K2);
      [auto with pico
      | apply room_log, room_env_after, K1;
          [lia | apply room_log, room_env_after, K0; [lia | exact R2]] |] end.
  rewrite E2. assert (H2 : handled m2).
  { eapply handled_same; [exact V2 | exact I2 | auto with pico]. }
  cbv beta. main_step.
  (* trigger_isr 3; sleep *)
  rewrite exec_bind. change (11 + n)%nat with (10 + S n)%nat.
  match goal with |- context [exec env_act _ (trigger_isr 3) sched ?s ?mm] =>
    destruct (trigger_isr_any sched s mm 3 (S n))
      as (m3 & a3 & E3 & C3 & _ & V3 & I3 & D3 & K3);
      [auto with pico
      | apply room_log, room_env_after, K2;
          [lia | apply room_log, room_env_after, K1;
                   [lia | apply room_log, room_env_after, K0; [lia | exact R3]]] |] end.
  rewrite E3. assert (H3 : handled m3).
  { eapply handled_same; [exact V3 | exact I3 | auto with pico]. }
  cbv beta. main_last_step.
  eexists. split; [reflexivity|].
  field_simpl. rewrite C3, V3, I3, D3. field_simpl.
  rewrite C2, V2, I2, D2. field_simpl.
  rewrite C1, V1, I1, D1. field_simpl.
  rewrite C0, V0, I0, D0.
  repeat split.
  rewrite !pacing_app. cbn [pacing]. unfold one_cycle.
  rewrite <- !app_assoc. reflexivity.
Qed.

(** ** The driver loop: reset, stimulus, rotation *)

(** C4: when [trigger_isr] has done its last statement, [irq_flags] is 0,
    whatever it held before, whatever happened meanwhile and however long
    the stimulus had to wait; and with a handler in place and room in the
    queue the call is over after ten turns. *)
Theorem trigger_isr_resets_flags
        (sched : schedule) (slot : nat) (m : machine) (prior sm : Z) (fuel n : nat) :
  match exec env_act fuel (trigger_isr sm) sched slot (set_irq_flags prior m) with
  | Done m' _ _ _ => irq_flags m' = 0
  | _ => True
  end /\
  (handled m -> room sm m ->
   exists m' : machine,
     exec env_act (10 + n) (trigger_isr sm) sched slot (set_irq_flags prior m)
       = Done m' (10 + slot) n tt /\
     irq_flags m' = 0).
Proof.
  split.
  - pose proof (trigger_isr_returns sm (set_irq_flags prior m) fuel sched slot) as H.
    destruct (exec env_act fuel (trigger_isr sm) sched slot (set_irq_flags prior m));
      [apply H | exact I | exact I].
  - intros H Hroom.
    destruct (trigger_isr_any sched slot (set_irq_flags prior m) sm n)
      as (m' & actual & E & _ & F & _); [auto with pico | exact Hroom |].
    exists m'. split; assumption.
Qed.

(** C9: a call of [trigger_isr] that returns has sent one word to the queue
    of its state machine, the word 1; a turn of the loop that returns has
    sent to each of the four state machines exactly the word 1; and with a
    handler in place and room in the queues both do return. *)
Theorem one_stimulus_word_per_channel
        (sched : schedule) (slot : nat) (m : machine) (sm : Z) (fuel n : nat) :
  match exec env_act fuel (trigger_isr sm) sched slot m with
  | Done m' _ _ _ => pacing (calls m') = (pacing (calls m) ++ [Stimulate sm 1])%list
  | _ => True
  end /\
  match exec env_act fuel main_loop_body sched slot m with
  | Done m' _ _ _ =>
      forall j : Z, 0 <= j <= 3 ->
        words_to j (pacing (calls m')) = (words_to j (pacing (calls m)) ++ [1])%list
  | _ => True
  end /\
  (handled m -> room sm m ->
   exists m' : machine,
     exec env_act (10 + n) (trigger_isr sm) sched slot m = Done m' (10 + slot) n tt) /\
  (handled m -> (forall j : Z, 0 <= j <= 3 -> room j m) ->
   exists m' : machine,
     exec env_act (44 + n) main_loop_body sched slot m = Done m' (44 + slot) n tt).
Proof.
  split; [|split; [|split]].
  - pose proof (trigger_isr_returns sm m fuel sched slot) as H.
    destruct (exec env_act fuel (trigger_isr sm) sched slot m); [|exact I|exact I].
    destruct H as (_ & actual & C). rewrite C, pacing_app. reflexivity.
  - pose proof (main_loop_body_returns m fuel sched slot) as H.
    destruct (exec env_act fuel main_loop_body sched slot m); [|exact I|exact I].
    intros j Hj. rewrite H, words_to_app. f_equal.
    assert (j = 0 \/ j = 1 \/ j = 2 \/ j = 3) as [-> | [-> | [-> | ->]]] by lia;
      reflexivity.
  - intros H Hsm.
    destruct (trigger_isr_any sched slot m sm n H Hsm) as (m' & actual & E & _).
    exists m'. exact E.
  - intros H Hroom.
    destruct (main_loop_body_any sched slot m n H Hroom) as (m' & E & _).
    exists m'. exact E.
Qed.

(** C5: a turn of the loop that returns has stimulated the state machines
    0, 1, 2, 3 in this order, each stimulation followed by one delay of
    1000 ms; and with a handler in place and room in the queues the turn
    does return, after 44 turns of the executor. *)
Theorem main_loop_rotation
        (sched : schedule) (slot : nat) (m : machine) (fuel n : nat) :
  match exec env_act fuel main_loop_body sched slot m with
  | Done m' _ _ _ =>
      pacing (calls m') =
        (pacing (calls m) ++
         [Stimulate 0 1; Delay 1000; Stimulate 1 1; Delay 1000;
          Stimulate 2 1; Delay 1000; Stimulate 3 1; Delay 1000])%list
  | _ => True
  end /\
  (handled m -> (forall j : Z, 0 <= j <= 3 -> room j m) ->
   exists m' : machine,
     exec env_act (44 + n) main_loop_body sched slot m = Done m' (44 + slot) n tt).
Proof.
  split.
  - pose proof (main_loop_body_returns m fuel sched slot) as H.
    destruct (exec env_act fuel main_loop_body sched slot m); [exact H | exact I | exact I].
  - intros H Hroom.
    destruct (main_loop_body_any sched slot m n H Hroom) as (m' & E & _).
    exists m'. exact E.
Qed.

(** ** The program loader *)

Lemma load_pio_programs_any
      (sched : schedule) (slot : nat) (m : machine) (n : nat) :
  handled m ->
  exists m' : machine,
    exec env_act (5 + n) load_pio_programs sched slot m = Done m' (5 + slot) n tt /\
    calls m' =
      (calls m ++
       [call_pio_add_program (add_program_offset m);
        call_simply_isr_program_init 0 (add_program_offset m);
        call_simply_isr_program_init 1 (add_program_offset m);
        call_simply_isr_program_init 2 (add_program_offset m);
        call_simply_isr_program_init 3 (add_program_offset m)])%list /\
    (forall j : Z, 0 <= j <= 3 -> sm_offset m' j = Some (add_program_offset m)) /\
    (forall j : Z, ~ 0 <= j <= 3 -> sm_offset m' j = sm_offset m j) /\
    vector m' = vector m /\ irq_enabled m' = irq_enabled m /\
    tx_depth m' = tx_depth m /\
    (idle m -> idle m').
Proof.
  intros H. unfold load_pio_programs. unfold_calls. cbv zeta.
  cbn [Nat.add]. do 4 main_step. main_last_step.
  eexists. split; [reflexivity|]. field_simpl.
  rewrite <- !app_assoc. cbn [app].
  split; [reflexivity|].
  split; [|split; [|split; [reflexivity|split; [reflexivity|
    split; [reflexivity|auto 30 with pico]]]]].
  - intros j Hj.
    assert (j = 0 \/ j = 1 \/ j = 2 \/ j = 3) as [-> | [-> | [-> | ->]]] by lia;
      reflexivity.
  - intros j Hj.
    destruct (Z.eqb_spec j 3); [lia|]. destruct (Z.eqb_spec j 2); [lia|].
    destruct (Z.eqb_spec j 1); [lia|]. destruct (Z.eqb_spec j 0); [lia|].
    reflexivity.
Qed.

(** C6: a run of [load_pio_programs] that returns has added the program
    once and passed the offset the SDK answered, whatever it is, unchanged
    to the initialisation of the state machines 0, 1, 2 and 3, and to
    nothing else; and with no unhandled interrupt in the way it returns
    after five turns. *)
Theorem load_pio_programs_shares_offset
        (sched : schedule) (slot : nat) (m : machine) (fuel n : nat) :
  match exec env_act fuel load_pio_programs sched slot m with
  | Done m' _ _ _ =>
      calls m' =
        (calls m ++
         [call_pio_add_program (add_program_offset m);
          call_simply_isr_program_init 0 (add_program_offset m);
          call_simply_isr_program_init 1 (add_program_offset m);
          call_simply_isr_program_init 2 (add_program_offset m);
          call_simply_isr_program_init 3 (add_program_offset m)])%list
  | _ => True
  end /\
  (handled m ->
   exists m' : machine,
     exec env_act (5 + n) load_pio_programs sched slot m = Done m' (5 + slot) n tt /\
     (forall j : Z, 0 <= j <= 3 -> sm_offset m' j = Some (add_program_offset m)) /\
     (forall j : Z, ~ 0 <= j <= 3 -> sm_offset m' j = sm_offset m j)).
Proof.
  split.
  - pose proof (load_pio_programs_returns m fuel sched slot) as H.
    destruct (exec env_act fuel load_pio_programs sched slot m);
      [exact H | exact I | exact I].
  - intros H.
    destruct (load_pio_programs_any sched slot m n H) as (m' & E & _ & S1 & S2 & _).
    exists m'. repeat split; assumption.
Qed.

(** ** Interrupt registration *)

Lemma enable_pio_isrs_any
      (sched : schedule) (slot : nat) (m : machine) (n : nat) :
  handled m ->
  exists m' : machine,
    exec env_act (2 + n) enable_pio_isrs sched slot m = Done m' (2 + slot) n tt /\
    calls m' =
      (calls m ++
       [call_irq_set_exclusive_handler fn_simply_isr_handler;
        call_irq_set_enabled true])%list /\
    vector m' = Some fn_simply_isr_handler /\ irq_enabled m' = true /\
    sm_offset m' = sm_offset m /\ tx_depth m' = tx_depth m /\
    (idle m -> idle m').
Proof.
  intros H. unfold enable_pio_isrs. unfold_calls.
  cbn [Nat.add]. main_step. main_last_step.
  eexists. split; [reflexivity|]. field_simpl.
  rewrite <- !app_assoc. cbn [app].
  repeat (split; [reflexivity|]). auto 30 with pico.
Qed.

(** C7: [enable_pio_isrs] installs the handler and then enables the
    interrupt; started with the interrupt disabled, neither it nor [main]
    as a whole is ever at a point where the interrupt is enabled and no
    handler is installed, and the core never stops on an unhandled
    interrupt. *)
Theorem handler_installed_before_enable
        (sched : schedule) (slot : nat) (m : machine) :
  irq_enabled m = false ->
  (forall n : nat, exists m' : machine,
      exec env_act (2 + n) enable_pio_isrs sched slot m = Done m' (2 + slot) n tt /\
      calls m' =
        (calls m ++
         [call_irq_set_exclusive_handler fn_simply_isr_handler;
          call_irq_set_enabled true])%list /\
      vector m' = Some fn_simply_isr_handler /\ irq_enabled m' = true) /\
  (forall fuel : nat,
      match exec env_act fuel enable_pio_isrs sched slot m with
      | Fault _ _ => False
      | o => irq_enabled (machine_of o) = true ->
             vector (machine_of o) = Some fn_simply_isr_handler
      end) /\
  (forall fuel : nat,
      match run fuel main sched m with
      | Fault _ _ => False
      | o => irq_enabled (machine_of o) = true ->
             vector (machine_of o) = Some fn_simply_isr_handler
      end).
Proof.
  intros Hoff.
  assert (H : handled m) by (intros E; congruence).
  split; [|split].
  - intros n. destruct (enable_pio_isrs_any sched slot m n H) as (m' & E & C & V & I & _).
    exists m'. repeat split; assumption.
  - intros fuel. exact (keeps_handled_enable_pio_isrs fuel sched slot m H).
  - intros fuel. exact (keeps_handled_main fuel sched 0%nat m H).
Qed.

(** ** The start-up *)

Lemma main_startup (sched : schedule) (m : machine) (n : nat) :
  handled m ->
  exists m' : machine,
    run (8 + n) main sched m
      = exec env_act n (ITree.forever main_loop_body) sched 8 m' /\
    pacing (calls m') = pacing (calls m) /\
    vector m' = Some fn_simply_isr_handler /\ irq_enabled m' = true /\
    (forall j : Z, 0 <= j <= 3 -> sm_offset m' j = Some (add_program_offset m)) /\
    tx_depth m' = tx_depth m /\
    (idle m -> idle m').
Proof.
  intros H. unfold run, main, stdio_init_all.
  change (8 + n)%nat with (S (5 + S (S n))). main_step.
  rewrite exec_bind.
  match goal with |- context [exec env_act _ load_pio_programs sched ?s ?mm] =>
    destruct (load_pio_programs_any sched s mm (S (S n)))
      as (m1 & E1 & C1 & S1 & _ & V1 & I1 & D1 & Q1); [auto with pico|] end.
  rewrite E1. assert (H1 : handled m1).
  { eapply handled_same; [exact V1 | exact I1 | auto with pico]. }
  rewrite exec_bind.
  destruct (enable_pio_isrs_any sched 6 m1 n H1)
    as (m2 & E2 & C2 & V2 & I2 & S2 & D2 & Q2).
  change (S (S n)) with (2 + n)%nat. change (5 + 1)%nat with 6%nat. rewrite E2.
  exists m2. split; [reflexivity|].
  split; [|split; [exact V2|split; [exact I2|split; [|split]]]].
  - rewrite C2, pacing_app, C1, pacing_app. field_simpl.
    rewrite pacing_app. cbn [pacing]. rewrite !app_nil_r. reflexivity.
  - intros j Hj. rewrite S2, (S1 j Hj). field_simpl. reflexivity.
  - rewrite D2, D1. field_simpl. reflexivity.
  - intros Hi. apply Q2, Q1. auto with pico.
Qed.

(** From power-on the start-up always ends in a [ready] state. *)
Lemma startup_ready (sched : schedule) (depth : nat) (offset : Z) (n : nat) :
  (0 < depth)%nat ->
  exists m' : machine,
    run (8 + n) main sched (boot depth offset)
      = exec env_act n (ITree.forever main_loop_body) sched 8 m' /\
    pacing (calls m') = [] /\
    ready m'.
Proof.
  intros Hd.
  assert (H : handled (boot depth offset)) by (intros E; discriminate E).
  destruct (main_startup sched (boot depth offset) n H) as (m' & E & P & V & I & O & D & Q).
  exists m'. split; [exact E|]. split; [exact P|].
  split; [apply Q; split; reflexivity|].
  split; [exact I|]. split; [exact V|]. split; [rewrite D; exact Hd|].
  intros j Hj. rewrite (O j Hj). discriminate.
Qed.

(** ** A stimulus serviced before the flags are read *)

Lemma shiftl_1_cases (k : Z) :
  0 <= k <= 3 ->
  (k = 0 /\ Z.shiftl 1 k = 1) \/ (k = 1 /\ Z.shiftl 1 k = 2) \/
  (k = 2 /\ Z.shiftl 1 k = 4) \/ (k = 3 /\ Z.shiftl 1 k = 8).
Proof.
  intros H.
  assert (k = 0 \/ k = 1 \/ k = 2 \/ k = 3) as [-> | [-> | [-> | ->]]] by lia; auto.
Qed.

(** One action of the environment moves the stimulus along as [advance]
    says. *)
Lemma env_act_phase (k : Z) (p : phase) (a : env_action) (m : machine) :
  0 <= k <= 3 -> armed k m -> in_phase k p m ->
  exists m', env_act a m = Some m' /\ in_phase k (advance k p a) m'.
Proof.
  intros Hk (I & V & O) Hp. destruct p; cbn [in_phase] in Hp.
  - (* Queued *)
    destruct Hp as (P & (w & Q) & E).
    destruct a as [[j]|during]; cbn [env_act hw_act advance].
    + destruct (Z.eqb_spec j k) as [->|Hj].
      * eexists. split; [reflexivity|]. cbn [in_phase].
        unfold sm_step. rewrite Q, P.
        replace ((0 <=? k) && (k <=? 3)) with true
          by (symmetry; apply andb_true_intro; split; apply Z.leb_le; lia).
        destruct (sm_offset m k); [|contradiction O; reflexivity].
        rewrite Z.bits_0. cbn [pio0_hw_irq set_pio0_hw_irq tx_fifo set_tx_fifo].
        split; [reflexivity|]. intros j.
        destruct (Z.eqb_spec j k); [reflexivity | apply E; assumption].
      * eexists. split; [reflexivity|]. rewrite sm_step_empty by (apply E; exact Hj).
        cbn [in_phase]. eauto.
    + exists m. split; [|cbn [in_phase]; eauto].
      unfold take_irq, line_asserted. rewrite P. cbn. rewrite andb_false_r. reflexivity.
  - (* Raised *)
    destruct Hp as (P & Q).
    destruct a as [[j]|during]; cbn [env_act hw_act advance].
    + exists m. rewrite sm_step_empty by apply Q. cbn [in_phase]. auto.
    + rewrite take_irq_eq. unfold line_asserted. rewrite I, V, P.
      replace (negb (Z.land (Z.shiftl 1 k) 15 =? 0)) with true
        by (destruct (shiftl_1_cases k Hk) as [[-> ->] | [[-> ->] | [[-> ->] | [-> ->]]]];
            reflexivity).
      cbn [andb]. eexists. split; [reflexivity|].
      pose proof (isr_run_eq during m) as R. cbv zeta in R.
      rewrite !hw_run_empty in R by (try rewrite hw_run_empty; exact Q).
      rewrite R, P. cbn [in_phase]. unfold idle.
      cbn [pio0_hw_irq set_pio0_hw_irq tx_fifo set_irq_flags irq_flags].
      repeat split; [|exact Q].
      rewrite <- Z.ldiff_land. apply Z.ldiff_diag.
  - (* Serviced *)
    destruct Hp as (Hi & F). exists m. rewrite env_act_idle by exact Hi.
    split; [reflexivity|].
    destruct a as [[j]|during]; cbn [advance in_phase]; auto.
Qed.

Lemma armed_config (k : Z) (m m' : machine) : same_config m m' -> armed k m -> armed k m'.
Proof.
  unfold armed. intros (_ & V & I & O & _). rewrite V, I, O. exact (fun H => H).
Qed.

Lemma run_actions_phase (k : Z) (l : list env_action) :
  forall (p : phase) (m : machine),
    0 <= k <= 3 -> armed k m -> in_phase k p m ->
    in_phase k (fold_left (advance k) l p) (env_after l m).
Proof.
  unfold env_after.
  induction l as [|a l IH]; intros p m Hk Ha Hp; cbn [fold_left run_actions]; [exact Hp|].
  destruct (env_act_phase k p a m Hk Ha Hp) as (m1 & E & Hp1).
  rewrite E.
  assert (Ha1 : armed k m1).
  { eapply armed_config; [eapply env_act_config; exact E | exact Ha]. }
  specialize (IH _ m1 Hk Ha1 Hp1).
  destruct (run_actions env_act l m1) as [m2|] eqn:E2; [exact IH|].
  destruct (env_total l m1) as [m2 E3]; [intros _; apply Ha1 | congruence].
Qed.

Lemma advance_serviced (k : Z) (l : list env_action) :
  fold_left (advance k) l Serviced = Serviced.
Proof. induction l as [|[[j]|d] l IH]; cbn [fold_left advance]; auto. Qed.

Lemma advance_raised (k : Z) (l : list env_action) :
  fold_left (advance k) l Raised <> Queued.
Proof.
  induction l as [|[[j]|d] l IH]; cbn [fold_left advance]; [discriminate|exact IH|].
  rewrite advance_serviced. discriminate.
Qed.

(** A schedule in which the stimulus is serviced takes it through all
    three phases. *)
Lemma serviced_in_advance (k : Z) (l : list env_action) :
  serviced_in k l -> fold_left (advance k) l Queued = Serviced.
Proof.
  intros (l1 & l2 & d & l3 & ->).
  rewrite fold_left_app. cbn [fold_left].
  set (p1 := advance k (fold_left (advance k) l1 Queued) (Hw (Sm_step k))).
  assert (H1 : p1 <> Queued).
  { subst p1. destruct (fold_left (advance k) l1 Queued); cbn [advance];
      [rewrite Z.eqb_refl|..]; discriminate. }
  rewrite fold_left_app. cbn [fold_left].
  set (p2 := fold_left (advance k) l2 p1).
  assert (H2 : p2 <> Queued).
  { subst p2. destruct p1; [contradiction H1; reflexivity | apply advance_raised |
      rewrite advance_serviced; discriminate]. }
  destruct p2; [contradiction H2; reflexivity | |]; cbn [advance]; apply advance_serviced.
Qed.

Lemma shl1_small (k : Z) : 0 <= k <= 3 -> shl1 k = Z.shiftl 1 k.
Proof.
  intros H. unfold shl1, wrap32.
  destruct (shiftl_1_cases k H) as [[-> ->] | [[-> ->] | [[-> ->] | [-> ->]]]]; reflexivity.
Qed.

(** The stimulus of [trigger_isr k], serviced between the call of
    [pio_sm_put_blocking] and the load of [irq_flags]. *)
Lemma trigger_isr_synchronized
        (sched : schedule) (slot : nat) (m : machine) (k : Z) (n : nat) :
  ready m ->
  0 <= k <= 3 ->
  serviced_in k (sched (2 + slot)%nat ++ sched (3 + slot)%nat) ->
  (exists m4 : machine,
      exec env_act 4 (trigger_isr k) sched slot m = Out_of_fuel m4 (4 + slot) /\
      irq_flags m4 = Z.shiftl 1 k) /\
  (exists m' : machine,
      exec env_act (10 + n) (trigger_isr k) sched slot m = Done m' (10 + slot) n tt /\
      calls m' =
        (calls m ++
         [call_printf ("Triggering ISR from state machine " ++ fmt_d k ++ LF);
          call_pio_sm_put_blocking k 1;
          call_printf ("Expected IRQ flags: 0x" ++ fmt_08X (Z.shiftl 1 k) ++ LF);
          call_printf ("Actual IRQ Flags: 0x" ++ fmt_08X (Z.shiftl 1 k) ++ LF)])%list /\
      (k = 2 ->
       console (calls m') =
         (console (calls m) ++
          [("Triggering ISR from state machine 2" ++ LF)%string;
           ("Expected IRQ flags: 0x00000004" ++ LF)%string;
           ("Actual IRQ Flags: 0x00000004" ++ LF)%string])%list) /\
      irq_flags m' = 0 /\
      ready m').
Proof.
  intros (Hidle & I & V & D & O) Hk Hs.
  assert (H : handled m) by (intros _; exact V).
  unfold trigger_isr. unfold_calls. rewrite (shl1_small k Hk).
  (* the first line and the stimulus *)
  set (ma := log (call_printf ("Triggering ISR from state machine " ++ fmt_d k ++ LF)) m).
  set (mb := log (call_pio_sm_put_blocking k 1) (set_tx_fifo k [1] ma)).
  assert (Hb : in_phase k Queued mb /\ armed k mb).
  { destruct Hidle as [P Q]. split.
    - cbn. split; [exact P|]. split.
      + exists 1. rewrite Z.eqb_refl. reflexivity.
      + intros j Hj. destruct (Z.eqb_spec j k); [contradiction | apply Q].
    - repeat split; [exact I | exact V | apply O, Hk]. }
  destruct Hb as [Pb Ab].
  (* the environment's two turns before the read *)
  set (mc := env_after (sched (2 + slot)%nat) mb).
  set (md := log (call_printf ("Expected IRQ flags: 0x" ++ fmt_08X (Z.shiftl 1 k) ++ LF)) mc).
  set (me := env_after (sched (3 + slot)%nat) md).
  assert (Pc : in_phase k (fold_left (advance k) (sched (2 + slot)%nat) Queued) mc).
  { apply run_actions_phase; assumption. }
  assert (Ac : armed k mc).
  { eapply armed_config; [apply (env_after_config (sched (2 + slot)%nat) mb) | exact Ab]. }
  assert (Ad : armed k md) by exact Ac.
  assert (Pe : in_phase k Serviced me).
  { rewrite <- (serviced_in_advance k _ Hs), fold_left_app.
    apply run_actions_phase; [exact Hk | exact Ad |].
    destruct (fold_left (advance k) (sched (2 + slot)%nat) Queued); exact Pc. }
  destruct Pe as [Ie Fe].
  assert (Ha : handled ma) by exact H.
  assert (Hb : handled mb) by exact H.
  assert (Hd : handled md) by (intros _; apply Ad).
  assert (He : handled me) by (subst me; auto with pico).
  assert (Ia : idle ma) by exact Hidle.
  assert (Ra : room k ma).
  { unfold room. change (tx_fifo ma k) with (tx_fifo m k).
    rewrite (proj2 Hidle k). exact D. }
  assert (Ea : (tx_fifo ma k ++ [1])%list = [1]) by (change (tx_fifo ma k) with (tx_fifo m k); rewrite (proj2 Hidle k); reflexivity).
  split.
  - exists me. cbn [Nat.add].
    main_step. rewrite (env_after_idle _ m Hidle). fold ma.
    main_step. rewrite (env_after_idle _ ma Ia), (room_unblocked k ma Ra), Ea. fold mb.
    main_step. change (S (S slot)) with (2 + slot)%nat. fold mc. fold md.
    main_step. change (S (2 + slot)) with (3 + slot)%nat. fold me.
    split; [reflexivity | exact Fe].
  - cbn [Nat.add].
    main_step. rewrite (env_after_idle _ m Hidle). fold ma.
    main_step. rewrite (env_after_idle _ ma Ia), (room_unblocked k ma Ra), Ea. fold mb.
    main_step. change (S (S slot)) with (2 + slot)%nat. fold mc. fold md.
    main_step. change (S (2 + slot)) with (3 + slot)%nat. fold me.
    rewrite Fe.
    set (mf := log (call_printf ("Actual IRQ Flags: 0x" ++ fmt_08X (Z.shiftl 1 k) ++ LF)) me).
    assert (If : idle mf) by exact Ie.
    assert (Hf : handled mf) by exact He.
    main_step. rewrite (env_after_idle _ me Ie). fold mf.
    do 4 (main_step; rewrite (env_after_idle _ mf If), exec_if_then_nothing).
    main_last_step. rewrite (env_after_idle _ mf If).
    eexists. split; [reflexivity|].
    assert (Ce : calls me = (calls m ++
         [call_printf ("Triggering ISR from state machine " ++ fmt_d k ++ LF);
          call_pio_sm_put_blocking k 1;
          call_printf ("Expected IRQ flags: 0x" ++ fmt_08X (Z.shiftl 1 k) ++ LF)])%list).
    { subst me md mc mb ma. field_simpl. rewrite <- !app_assoc. reflexivity. }
    assert (Cf : calls (set_irq_flags 0 mf) = (calls m ++
         [call_printf ("Triggering ISR from state machine " ++ fmt_d k ++ LF);
          call_pio_sm_put_blocking k 1;
          call_printf ("Expected IRQ flags: 0x" ++ fmt_08X (Z.shiftl 1 k) ++ LF);
          call_printf ("Actual IRQ Flags: 0x" ++ fmt_08X (Z.shiftl 1 k) ++ LF)])%list).
    { subst mf. cbn [calls set_irq_flags log]. rewrite Ce, <- app_assoc. reflexivity. }
    split; [exact Cf|]. split; [|split; [reflexivity|]].
    + intros ->. rewrite Cf, console_app. reflexivity.
    + split; [exact Ie|].
      subst mf me md mc mb ma. field_simpl. auto.
Qed.

(** C1, with the condition it needs: from a state with nothing
    outstanding (no flag pending, no word queued), if after the stimulus for
    state machine [k] the flag is raised and the interrupt taken before
    [trigger_isr] reads [irq_flags], the value read is exactly [1 << k];
    the console shows it as both the expected and the actual value (for
    [k = 2], 0x00000004), and the call ends with [irq_flags] reset and
    nothing outstanding again. *)
Theorem synchronized_stimulus_observed
        (sched : schedule) (slot : nat) (m : machine) (k : Z) (n : nat) :
  ready m ->
  0 <= k <= 3 ->
  serviced_in k (sched (2 + slot)%nat ++ sched (3 + slot)%nat) ->
  (exists m4 : machine,
      exec env_act 4 (trigger_isr k) sched slot m = Out_of_fuel m4 (4 + slot) /\
      irq_flags m4 = Z.shiftl 1 k) /\
  (exists m' : machine,
      exec env_act (10 + n) (trigger_isr k) sched slot m = Done m' (10 + slot) n tt /\
      calls m' =
        (calls m ++
         [call_printf ("Triggering ISR from state machine " ++ fmt_d k ++ LF);
          call_pio_sm_put_blocking k 1;
          call_printf ("Expected IRQ flags: 0x" ++ fmt_08X (Z.shiftl 1 k) ++ LF);
          call_printf ("Actual IRQ Flags: 0x" ++ fmt_08X (Z.shiftl 1 k) ++ LF)])%list /\
      (k = 2 ->
       console (calls m') =
         (console (calls m) ++
          [("Triggering ISR from state machine 2" ++ LF)%string;
           ("Expected IRQ flags: 0x00000004" ++ LF)%string;
           ("Actual IRQ Flags: 0x00000004" ++ LF)%string])%list) /\
      irq_flags m' = 0 /\
      ready m').
Proof. apply trigger_isr_synchronized. Qed.

(** ** The loop never ends *)

Lemma eager_serviced (k : Z) (slot : nat) :
  0 <= k <= 3 -> serviced_in k (eager (2 + slot)%nat ++ eager (3 + slot)%nat).
Proof.
  intros Hk. unfold serviced_in, eager. cbn [app].
  assert (k = 0 \/ k = 1 \/ k = 2 \/ k = 3) as [-> | [-> | [-> | ->]]] by lia.
  - exists [], [Hw (Sm_step 1); Hw (Sm_step 2); Hw (Sm_step 3)], quiet,
      [Hw (Sm_step 0); Hw (Sm_step 1); Hw (Sm_step 2); Hw (Sm_step 3); Take_irq quiet].
    reflexivity.
  - exists [Hw (Sm_step 0)], [Hw (Sm_step 2); Hw (Sm_step 3)], quiet,
      [Hw (Sm_step 0); Hw (Sm_step 1); Hw (Sm_step 2); Hw (Sm_step 3); Take_irq quiet].
    reflexivity.
  - exists [Hw (Sm_step 0); Hw (Sm_step 1)], [Hw (Sm_step 3)], quiet,
      [Hw (Sm_step 0); Hw (Sm_step 1); Hw (Sm_step 2); Hw (Sm_step 3); Take_irq quiet].
    reflexivity.
  - exists [Hw (Sm_step 0); Hw (Sm_step 1); Hw (Sm_step 2)], [], quiet,
      [Hw (Sm_step 0); Hw (Sm_step 1); Hw (Sm_step 2); Hw (Sm_step 3); Take_irq quiet].
    reflexivity.
Qed.

Lemma ready_handled (m : machine) : ready m -> handled m.
Proof. intros (_ & _ & V & _) _. exact V. Qed.

Lemma ready_log (c : call) (m : machine) : ready m -> ready (log c m).
Proof. exact (fun H => H). Qed.

(** One step of the rotation with eager hardware: [trigger_isr k], whose
    stimulus is serviced at once, and the delay after it. *)
Ltac eager_turn k fuel_left m' E C R' :=
  rewrite exec_bind;
  match goal with
  | |- context [exec env_act _ (trigger_isr k) eager ?s ?mm] =>
      let R := fresh "Hrdy" in
      assert (R : ready mm) by (try apply ready_log; assumption);
      destruct (trigger_isr_synchronized eager s mm k fuel_left R
                  ltac:(lia) (eager_serviced k s ltac:(lia)))
        as (_ & m' & E & C & _ & _ & R')
  end.

Lemma main_loop_body_eager (slot : nat) (m : machine) (n : nat) :
  ready m ->
  exists m' : machine,
    exec env_act (44 + n) main_loop_body eager slot m = Done m' (44 + slot) n tt /\
    pacing (calls m') = (pacing (calls m) ++ one_cycle)%list /\
    ready m'.
Proof.
  intros Hr. unfold main_loop_body, sleep_ms.
  change (44 + n)%nat with (10 + S (33 + n))%nat.
  eager_turn 0 (S (33 + n)) m0 E0 C0 R0. rewrite E0.
  pose proof (ready_handled m0 R0) as H0.
  cbv beta. main_step. rewrite (env_after_idle _ m0) by apply R0.
  change (33 + n)%nat with (10 + S (22 + n))%nat.
  eager_turn 1 (S (22 + n)) m1 E1 C1 R1. rewrite E1.
  pose proof (ready_handled m1 R1) as H1.
  cbv beta. main_step. rewrite (env_after_idle _ m1) by apply R1.
  change (22 + n)%nat with (10 + S (11 + n))%nat.
  eager_turn 2 (S (11 + n)) m2 E2 C2 R2. rewrite E2.
  pose proof (ready_handled m2 R2) as H2.
  cbv beta. main_step. rewrite (env_after_idle _ m2) by apply R2.
  change (11 + n)%nat with (10 + S n)%nat.
  eager_turn 3 (S n) m3 E3 C3 R3. rewrite E3.
  pose proof (ready_handled m3 R3) as H3.
  cbv beta. main_last_step. rewrite (env_after_idle _ m3) by apply R3.
  eexists. split; [reflexivity|]. split; [|apply ready_log; exact R3].
  cbn [calls log].
  rewrite pacing_app, C3, pacing_app. cbn [calls log].
  rewrite pacing_app, C2, pacing_app. cbn [calls log].
  rewrite pacing_app, C1, pacing_app. cbn [calls log].
  rewrite pacing_app, C0, pacing_app. cbn [pacing].
  unfold one_cycle. rewrite <- !app_assoc. reflexivity.
Qed.

Lemma loop_cycles_eager (c : nat) :
  forall (slot : nat) (m : machine) (n : nat),
    ready m ->
    exists m' : machine,
      exec env_act (45 * c + n) (ITree.forever main_loop_body : itree picoE Z) eager slot m
        = exec env_act n (ITree.forever main_loop_body) eager (44 * c + slot) m' /\
      pacing (calls m') = (pacing (calls m) ++ cycles c)%list /\
      ready m'.
Proof.
  induction c as [|c IH]; intros slot m n Hr.
  - exists m. cbn [Nat.mul Nat.add cycles]. rewrite app_nil_r. repeat split; apply Hr.
  - replace (45 * S c + n)%nat with (44 + S (45 * c + n))%nat by lia.
    rewrite exec_unfold_forever, exec_bind.
    destruct (main_loop_body_eager slot m (S (45 * c + n)) Hr) as (m1 & E1 & P1 & R1).
    rewrite E1. cbn [exec observe _observe].
    destruct (IH (44 + slot)%nat m1 n R1) as (m' & E & P & R').
    exists m'. rewrite E.
    replace (44 * c + (44 + slot))%nat with (44 * S c + slot)%nat by lia.
    split; [reflexivity|]. split; [|exact R'].
    rewrite P, P1. cbn [cycles]. rewrite <- app_assoc. reflexivity.
Qed.

(** C8: [main] has no return value however long it runs and whatever
    happens beside it; started with the interrupt disabled it is, at every
    moment, still running; and with eager hardware it does not come to rest
    either: after the start-up every further 45 turns complete one more
    turn of the loop. *)
Theorem main_never_returns :
  (forall (fuel : nat) (sched : schedule) (m : machine),
      returned (run fuel main sched m) = None) /\
  (forall (fuel : nat) (sched : schedule) (m : machine),
      irq_enabled m = false ->
      exists (m' : machine) (slot : nat), run fuel main sched m = Out_of_fuel m' slot) /\
  (forall (depth : nat) (offset : Z) (c : nat),
      (0 < depth)%nat ->
      exists (m' : machine) (slot : nat),
        run (8 + 45 * c) main eager (boot depth offset) = Out_of_fuel m' slot /\
        pacing (calls m') = cycles c).
Proof.
  assert (A : forall (fuel : nat) (sched : schedule) (m : machine),
             returned (run fuel main sched m) = None).
  { intros fuel sched m. unfold run, main.
    rewrite exec_bind.
    destruct (exec env_act fuel stdio_init_all sched 0 m) as [m1 s1 n1 r1| |];
      [|reflexivity|reflexivity].
    rewrite exec_bind.
    destruct (exec env_act n1 load_pio_programs sched s1 m1) as [m2 s2 n2 r2| |];
      [|reflexivity|reflexivity].
    rewrite exec_bind.
    destruct (exec env_act n2 enable_pio_isrs sched s2 m2) as [m3 s3 n3 r3| |];
      [|reflexivity|reflexivity].
    apply exec_forever. }
  split; [exact A|]. split.
  - intros fuel sched m Hoff.
    assert (H : handled m) by (intros E; congruence).
    pose proof (keeps_handled_main fuel sched 0%nat m H) as K.
    specialize (A fuel sched m). unfold run in *.
    destruct (exec env_act fuel main sched 0 m) as [m' s' n' r| m' s' | m' s'].
    + discriminate A.
    + exists m', s'. reflexivity.
    + contradiction K.
  - intros depth offset c Hd.
    destruct (startup_ready eager depth offset (45 * c) Hd) as (m0 & E0 & P0 & R0).
    destruct (loop_cycles_eager c 8 m0 0 R0) as (m' & E & P & _).
    exists m', (44 * c + 8)%nat. rewrite E0.
    replace (45 * c)%nat with (45 * c + 0)%nat by lia. rewrite E.
    split; [reflexivity|]. rewrite P, P0. reflexivity.
Qed.

(** ** Concrete runs *)

Example fmt_08X_deadbeef : fmt_08X 3735928559 = "DEADBEEF".
Proof. reflexivity. Qed.

Example fmt_d_samples : (fmt_d 0, fmt_d 3, fmt_d (-12)) = ("0", "3", "-12").
Proof. reflexivity. Qed.

Lemma started_ready : ready (started 0).
Proof.
  split; [split; [reflexivity | intros j; reflexivity]|].
  split; [reflexivity|]. split; [reflexivity|]. split; [vm_compute; lia|].
  intros j Hj.
  assert (j = 0 \/ j = 1 \/ j = 2 \/ j = 3) as [-> | [-> | [-> | ->]]] by lia;
    vm_compute; discriminate.
Defined.

Lemma started_handled : handled (started 0).
Proof. intros _. reflexivity. Defined.

Lemma started_room (j : Z) : room j (started 0).
Proof. vm_compute. lia. Defined.

Lemma boot_handled : handled (boot 4 17).
Proof. intros E. discriminate E. Defined.

Lemma prompt_serviced : serviced_in 2 (prompt 2 (2 + 0)%nat ++ prompt 2 (3 + 0)%nat).
Proof. exists [], [], quiet, []. reflexivity. Defined.

(** Channel 2 serviced in time: expected and actual are both 0x00000004. *)
Example channel_2_synchronous :
  console (calls (machine_of (run 10 (trigger_isr 2) (prompt 2) (started 0)))) =
  [("Triggering ISR from state machine 2" ++ LF)%string;
   ("Expected IRQ flags: 0x00000004" ++ LF)%string;
   ("Actual IRQ Flags: 0x00000004" ++ LF)%string].
Proof. vm_compute. reflexivity. Qed.

(** The race of the source: read before the interrupt is serviced, the
    flags are still 0. *)
Example channel_2_read_too_early :
  console (calls (machine_of (run 10 (trigger_isr 2) quiet (started 0)))) =
  [("Triggering ISR from state machine 2" ++ LF)%string;
   ("Expected IRQ flags: 0x00000004" ++ LF)%string;
   ("Actual IRQ Flags: 0x00000000" ++ LF)%string].
Proof. vm_compute. reflexivity. Qed.

(** Two interrupts before the read, for state machine 0 and then for state
    machine 2: the read sees 4, not 5. *)
Example two_interrupts_last_wins :
  let late_0 : schedule :=
    fun slot =>
      match slot with
      | 2%nat => [Hw (Sm_step 0); Take_irq quiet; Hw (Sm_step 2); Take_irq quiet]
      | _ => []
      end in
  console (calls (machine_of
    (run 10 (trigger_isr 2) late_0 (set_tx_fifo 0 [1] (started 0))))) =
  [("Triggering ISR from state machine 2" ++ LF)%string;
   ("Expected IRQ flags: 0x00000004" ++ LF)%string;
   ("Actual IRQ Flags: 0x00000004" ++ LF)%string].
Proof. vm_compute. reflexivity. Qed.

(** A full queue makes the stimulus wait: with idle hardware the call does
    not get past [pio_sm_put_blocking]. *)
Example full_queue_blocks :
  pacing (calls (machine_of
    (run 100 (trigger_isr 2) quiet (set_tx_fifo 2 [1; 1; 1; 1] (started 0))))) = [].
Proof. vm_compute. reflexivity. Qed.

Lemma synchronized_stimulus_observed_witness :
  ready (started 0) /\ 0 <= 2 <= 3 /\
  serviced_in 2 (prompt 2 (2 + 0)%nat ++ prompt 2 (3 + 0)%nat) /\
  (exists m4 : machine,
      exec env_act 4 (trigger_isr 2) (prompt 2) 0 (started 0) = Out_of_fuel m4 (4 + 0) /\
      irq_flags m4 = Z.shiftl 1 2) /\
  (exists m' : machine,
      exec env_act (10 + 0) (trigger_isr 2) (prompt 2) 0 (started 0) = Done m' (10 + 0) 0 tt /\
      irq_flags m' = 0 /\ ready m').
Proof.
  split; [exact started_ready|]. split; [lia|]. split; [exact prompt_serviced|].
  destruct (synchronized_stimulus_observed (prompt 2) 0 (started 0) 2 0
              started_ready ltac:(lia) prompt_serviced)
    as [A (m' & E & _ & _ & F & R)].
  split; [exact A|]. exists m'. repeat split; assumption || apply R.
Defined.

(** C1 does not hold without the condition that nothing else is
    outstanding.  In the run of [main] from power-on under [crossed] the
    interrupt for state machine 1 is raised and serviced after the stimulus
    of [trigger_isr 1] and before its read, and yet the value read and
    printed is 3, not [1 << 1]: the flag of state machine 0, raised
    earlier and not yet serviced, is in the same snapshot. *)
Lemma synchronized_stimulus_observed_counterexample :
  run 19 main crossed (boot 4 0) = Out_of_fuel crossed_19 19 /\
  irq_enabled crossed_19 = true /\
  vector crossed_19 = Some fn_simply_isr_handler /\
  irq_flags crossed_19 = 0 /\
  pio0_hw_irq crossed_19 = 1 /\
  serviced_in 1 (crossed (2 + 19)%nat ++ crossed (3 + 19)%nat) /\
  (exists m4 : machine,
      exec env_act 4 (trigger_isr 1) crossed 19 crossed_19 = Out_of_fuel m4 (4 + 19) /\
      irq_flags m4 = 3) /\
  (exists m' : machine,
      exec env_act (10 + 0) (trigger_isr 1) crossed 19 crossed_19
        = Done m' (10 + 19) 0 tt /\
      console (calls m') =
        [("Triggering ISR from state machine 0" ++ LF)%string;
         ("Expected IRQ flags: 0x00000001" ++ LF)%string;
         ("Actual IRQ Flags: 0x00000000" ++ LF)%string;
         ("Triggering ISR from state machine 1" ++ LF)%string;
         ("Expected IRQ flags: 0x00000002" ++ LF)%string;
         ("Actual IRQ Flags: 0x00000003" ++ LF)%string]) /\
  3 <> Z.shiftl 1 1.
Proof.
  split; [vm_compute; reflexivity|]. split; [vm_compute; reflexivity|].
  split; [vm_compute; reflexivity|]. split; [vm_compute; reflexivity|].
  split; [vm_compute; reflexivity|].
  split; [exists [], [], quiet, []; reflexivity|].
  split.
  - exists (machine_of (exec env_act 4 (trigger_isr 1) crossed 19 crossed_19)).
    split; vm_compute; reflexivity.
  - split; [|vm_compute; discriminate].
    exists (machine_of (exec env_act 10 (trigger_isr 1) crossed 19 crossed_19)).
    split; vm_compute; reflexivity.
Qed.

Lemma handler_ack_clears_serviced_witness :
  Z.testbit (pio0_hw_irq (hw_run (@quiet hw_action 0%nat) (set_pio0_hw_irq 4 (started 0)))) 2 = true /\
  exec hw_act isr_fuel simply_isr_handler quiet 0 (set_pio0_hw_irq 4 (started 0))
    = Done (isr_run quiet (set_pio0_hw_irq 4 (started 0))) 4 0 tt /\
  irq_flags (isr_run quiet (set_pio0_hw_irq 4 (started 0)))
    = pio0_hw_irq (hw_run (@quiet hw_action 0%nat) (set_pio0_hw_irq 4 (started 0))) /\
  Z.testbit (pio0_hw_irq (isr_run quiet (set_pio0_hw_irq 4 (started 0)))) 2 = false.
Proof.
  split; [reflexivity|].
  destruct (handler_ack_clears_serviced quiet (set_pio0_hw_irq 4 (started 0)) 2 eq_refl)
    as (A & B & _ & C).
  split; [exact A|]. split; [exact B | exact C].
Defined.

Lemma handler_ack_keeps_other_flags_witness :
  Z.testbit (irq_flags (isr_run raised_meanwhile pending_2_queued_0)) 0 = false /\
  Z.testbit (pio0_hw_irq
               (hw_run (raised_meanwhile 0%nat ++ raised_meanwhile 1%nat ++
                        raised_meanwhile 2%nat ++ raised_meanwhile 3%nat)
                       pending_2_queued_0)) 0 = true /\
  exec hw_act isr_fuel simply_isr_handler raised_meanwhile 0 pending_2_queued_0
    = Done (isr_run raised_meanwhile pending_2_queued_0) 4 0 tt /\
  Z.testbit (pio0_hw_irq (isr_run raised_meanwhile pending_2_queued_0)) 0 =
  Z.testbit (pio0_hw_irq
               (hw_run (raised_meanwhile 0%nat ++ raised_meanwhile 1%nat ++
                        raised_meanwhile 2%nat ++ raised_meanwhile 3%nat)
                       pending_2_queued_0)) 0 /\
  irq_flags (isr_run raised_meanwhile pending_2_queued_0) = 4 /\
  pio0_hw_irq (isr_run raised_meanwhile pending_2_queued_0) = 1.
Proof.
  split; [vm_compute; reflexivity|]. split; [vm_compute; reflexivity|].
  destruct (handler_ack_keeps_other_flags raised_meanwhile pending_2_queued_0 0)
    as (A & B & _); [vm_compute; reflexivity|].
  split; [exact A|]. split; [exact B|].
  split; vm_compute; reflexivity.
Defined.

Lemma handler_overwrites_flags_witness :
  Z.testbit (irq_flags (isr_run quiet (set_irq_flags 8 stale_0))) 0 = true /\
  Z.testbit (pio0_hw_irq (hw_run (@quiet hw_action 0%nat)
      (hw_run [Sm_step 2] (isr_run quiet (set_irq_flags 8 stale_0))))) 0 = false /\
  irq_flags (isr_run quiet (set_irq_flags 8 stale_0)) = 1 /\
  irq_flags (isr_run quiet (hw_run [Sm_step 2] (isr_run quiet (set_irq_flags 8 stale_0)))) = 4 /\
  irq_flags (isr_run quiet (hw_run [Sm_step 2] (isr_run quiet (set_irq_flags 8 stale_0))))
    <> Z.lor 1 4.
Proof.
  destruct (handler_overwrites_flags quiet quiet [Sm_step 2] 8 stale_0) as (A & _ & B & C).
  split; [reflexivity|]. split; [reflexivity|].
  split; [exact A|]. split; [exact B|].
  apply (C 0); reflexivity.
Defined.

Lemma trigger_isr_resets_flags_witness :
  handled (started 0) /\ room 2 (started 0) /\
  match exec env_act 10 (trigger_isr 2) (prompt 2) 0 (set_irq_flags 15 (started 0)) with
  | Done m' _ _ _ => irq_flags m' = 0
  | _ => True
  end /\
  exists m' : machine,
    exec env_act (10 + 0) (trigger_isr 2) (prompt 2) 0 (set_irq_flags 15 (started 0))
      = Done m' (10 + 0) 0 tt /\
    irq_flags m' = 0.
Proof.
  split; [exact started_handled|]. split; [exact (started_room 2)|].
  destruct (trigger_isr_resets_flags (prompt 2) 0 (started 0) 15 2 10 0) as (A & B).
  split; [exact A|].
  exact (B started_handled (started_room 2)).
Defined.

Lemma one_stimulus_word_per_channel_witness :
  handled (started 0) /\ room 3 (started 0) /\
  (forall j : Z, 0 <= j <= 3 -> room j (started 0)) /\
  match exec env_act 10 (trigger_isr 3) quiet 0 (started 0) with
  | Done m' _ _ _ =>
      pacing (calls m') = (pacing (calls (started 0)) ++ [Stimulate 3 1])%list
  | _ => True
  end /\
  (exists m' : machine,
      exec env_act (10 + 0) (trigger_isr 3) quiet 0 (started 0) = Done m' (10 + 0) 0 tt) /\
  (exists m' : machine,
      exec env_act (44 + 0) main_loop_body quiet 0 (started 0) = Done m' (44 + 0) 0 tt).
Proof.
  split; [exact started_handled|]. split; [exact (started_room 3)|].
  split; [intros j _; exact (started_room j)|].
  destruct (one_stimulus_word_per_channel quiet 0 (started 0) 3 10 0) as (A & _ & C & D).
  split; [exact A|].
  split; [exact (C started_handled (started_room 3))
         | exact (D started_handled (fun j _ => started_room j))].
Defined.

Lemma main_loop_rotation_witness :
  handled (started 0) /\
  (forall j : Z, 0 <= j <= 3 -> room j (started 0)) /\
  match exec env_act 44 main_loop_body quiet 0 (started 0) with
  | Done m' _ _ _ =>
      pacing (calls m') =
        (pacing (calls (started 0)) ++
         [Stimulate 0 1; Delay 1000; Stimulate 1 1; Delay 1000;
          Stimulate 2 1; Delay 1000; Stimulate 3 1; Delay 1000])%list
  | _ => True
  end /\
  exists m' : machine,
    exec env_act (44 + 0) main_loop_body quiet 0 (started 0) = Done m' (44 + 0) 0 tt.
Proof.
  split; [exact started_handled|]. split; [intros j _; exact (started_room j)|].
  destruct (main_loop_rotation quiet 0 (started 0) 44 0) as (A & B).
  split; [exact A|].
  exact (B started_handled (fun j _ => started_room j)).
Defined.

Lemma load_pio_programs_shares_offset_witness :
  handled (boot 4 17) /\
  match exec env_act 5 load_pio_programs quiet 0 (boot 4 17) with
  | Done m' _ _ _ =>
      calls m' =
        (calls (boot 4 17) ++
         [call_pio_add_program (add_program_offset (boot 4 17));
          call_simply_isr_program_init 0 (add_program_offset (boot 4 17));
          call_simply_isr_program_init 1 (add_program_offset (boot 4 17));
          call_simply_isr_program_init 2 (add_program_offset (boot 4 17));
          call_simply_isr_program_init 3 (add_program_offset (boot 4 17))])%list
  | _ => True
  end /\
  exists m' : machine,
    exec env_act (5 + 0) load_pio_programs quiet 0 (boot 4 17) = Done m' (5 + 0) 0 tt /\
    (forall j : Z, 0 <= j <= 3 -> sm_offset m' j = Some 17).
Proof.
  split; [exact boot_handled|].
  destruct (load_pio_programs_shares_offset quiet 0 (boot 4 17) 5 0) as (A & B).
  split; [exact A|].
  destruct (B boot_handled) as (m' & E & S1 & _).
  exists m'. split; [exact E | exact S1].
Defined.

Lemma handler_installed_before_enable_witness :
  irq_enabled (boot 4 17) = false /\
  (exists m' : machine,
      exec env_act (2 + 0) enable_pio_isrs quiet 0 (boot 4 17) = Done m' (2 + 0) 0 tt /\
      calls m' =
        [call_irq_set_exclusive_handler fn_simply_isr_handler; call_irq_set_enabled true]) /\
  match run 8 main quiet (boot 4 17) with
  | Fault _ _ => False
  | o => irq_enabled (machine_of o) = true ->
         vector (machine_of o) = Some fn_simply_isr_handler
  end.
Proof.
  split; [reflexivity|].
  destruct (handler_installed_before_enable quiet 0 (boot 4 17) eq_refl) as (A & _ & C).
  split.
  - destruct (A 0%nat) as (m' & E & L & _). exists m'. split; [exact E | exact L].
  - exact (C 8%nat).
Defined.

Lemma main_never_returns_witness :
  irq_enabled (boot 4 17) = false /\ (0 < 4)%nat /\
  returned (run 100 main quiet (boot 4 17)) = None /\
  (exists (m' : machine) (slot : nat),
      run 100 main quiet (boot 4 17) = Out_of_fuel m' slot) /\
  (exists (m' : machine) (slot : nat),
      run (8 + 45 * 2) main eager (boot 4 17) = Out_of_fuel m' slot /\
      pacing (calls m') = cycles 2).
Proof.
  split; [reflexivity|]. split; [lia|].
  destruct main_never_returns as (A & B & C).
  split; [apply A|]. split; [apply B; reflexivity | apply C; lia].
Defined.

(* ===================================================================== *)
(** * Further properties of the handshake *)
(* ===================================================================== *)

(** ** The handler on its own *)

(** With idle hardware the handler leaves no flag pending at all. *)
Lemma isr_run_quiet_register (m : machine) : pio0_hw_irq (isr_run quiet m) = 0.
Proof.
  rewrite isr_run_pio0_hw_irq, isr_run_irq_flags. cbn [quiet app hw_run fold_left].
  rewrite <- Z.ldiff_land. apply Z.ldiff_diag.
Qed.


(** X1: the handler called again with nothing new pending erases what it
    recorded: after two runs in a row with idle hardware [irq_flags] is 0,
    whatever the first run had read, and the register is clear. *)
Theorem handler_rerun_erases_snapshot (m : machine) :
  exec hw_act isr_fuel simply_isr_handler quiet 0 (isr_run quiet m)
    = Done (isr_run quiet (isr_run quiet m)) 4 0 tt /\
  irq_flags (isr_run quiet m) = pio0_hw_irq m /\
  irq_flags (isr_run quiet (isr_run quiet m)) = 0 /\
  pio0_hw_irq (isr_run quiet (isr_run quiet m)) = 0.
Proof.
  split; [apply isr_run_exec|].
  split; [rewrite isr_run_irq_flags; reflexivity|].
  split; [|apply isr_run_quiet_register].
  rewrite isr_run_irq_flags. cbn [quiet hw_run fold_left].
  apply isr_run_quiet_register.
Qed.


Lemma hw_run_quiet (i : nat) (m : machine) : hw_run (quiet i) m = m.
Proof. reflexivity. Qed.

(** A state machine with a word in its queue and its flag clear raises
    the flag. *)
Lemma sm_step_raises (k : Z) (m : machine) (w : Z) (rest : list Z) :
  0 <= k <= 3 -> sm_offset m k <> None -> tx_fifo m k = w :: rest ->
  Z.testbit (pio0_hw_irq m) k = false ->
  sm_step k m = set_pio0_hw_irq (Z.lor (pio0_hw_irq m) (Z.shiftl 1 k))
                                (set_tx_fifo k rest m).
Proof.
  intros Hk O Q T. unfold sm_step. rewrite Q, T.
  replace ((0 <=? k) && (k <=? 3)) with true
    by (symmetry; apply andb_true_intro; split; apply Z.leb_le; lia).
  destruct (sm_offset m k); [reflexivity | contradiction O; reflexivity].
Qed.

(** X3: one run of the handler reports every flag pending at that moment.
    When the state machines [j] and [k] have both raised their flags
    before the interrupt is taken, the single snapshot holds both bits and
    the acknowledgment clears both. *)
Theorem handler_reports_all_pending
        (j k : Z) (m : machine) (wj wk : Z) (qj qk : list Z) :
  0 <= j <= 3 -> 0 <= k <= 3 -> j <> k ->
  sm_offset m j <> None -> sm_offset m k <> None ->
  tx_fifo m j = wj :: qj -> tx_fifo m k = wk :: qk ->
  pio0_hw_irq m = 0 ->
  irq_flags (isr_run quiet (hw_run [Sm_step j; Sm_step k] m))
    = Z.lor (Z.shiftl 1 j) (Z.shiftl 1 k) /\
  Z.testbit (irq_flags (isr_run quiet (hw_run [Sm_step j; Sm_step k] m))) j = true /\
  Z.testbit (irq_flags (isr_run quiet (hw_run [Sm_step j; Sm_step k] m))) k = true /\
  pio0_hw_irq (isr_run quiet (hw_run [Sm_step j; Sm_step k] m)) = 0.
Proof.
  intros Hj Hk Hjk Oj Ok Qj Qk P.
  assert (E : pio0_hw_irq (hw_run [Sm_step j; Sm_step k] m)
              = Z.lor (Z.shiftl 1 j) (Z.shiftl 1 k)).
  { cbn [hw_run fold_left].
    rewrite (sm_step_raises j m wj qj Hj Oj Qj) by (rewrite P; apply Z.bits_0).
    rewrite (sm_step_raises k _ wk qk Hk).
    - cbn [pio0_hw_irq set_pio0_hw_irq set_tx_fifo]. rewrite P. reflexivity.
    - exact Ok.
    - cbn [tx_fifo set_pio0_hw_irq set_tx_fifo].
      destruct (Z.eqb_spec k j); [congruence | exact Qk].
    - cbn [pio0_hw_irq set_pio0_hw_irq set_tx_fifo]. rewrite P.
      rewrite Z.lor_0_l, Z.shiftl_1_l, Z.pow2_bits_eqb by lia.
      apply Z.eqb_neq. exact Hjk. }
  rewrite isr_run_irq_flags, hw_run_quiet.
  split; [exact E|]. rewrite E.
  split; [|split; [|apply isr_run_quiet_register]].
  - rewrite Z.lor_spec, Z.shiftl_1_l, Z.pow2_bits_eqb, Z.eqb_refl by lia. reflexivity.
  - rewrite Z.lor_spec, (Z.shiftl_1_l k), (Z.pow2_bits_eqb k), Z.eqb_refl by lia.
    apply orb_true_r.
Qed.


(** ** The race between the handler and the read *)

(** While only the hardware acts, [irq_flags] stays as it is and the core
    does not stop. *)
Lemma run_actions_hw_only (l : list env_action) (m : machine) :
  hw_only l ->
  exists m', run_actions env_act l m = Some m' /\ irq_flags m' = irq_flags m.
Proof.
  unfold hw_only. revert m.
  induction l as [|[[sm]|d] l IH]; intros m H; cbn [run_actions env_act hw_act].
  - exists m. split; reflexivity.
  - cbn [forallb is_hw andb] in H. destruct (IH (sm_step sm m) H) as (m' & E & F).
    exists m'. split; [exact E|]. rewrite F. apply sm_step_config.
  - discriminate H.
Qed.

Lemma irq_flags_env_after_hw_only (l : list env_action) (m : machine) :
  hw_only l -> irq_flags (env_after l m) = irq_flags m.
Proof.
  intros H. unfold env_after.
  destruct (run_actions_hw_only l m H) as (m' & E & F). rewrite E. exact F.
Qed.

(** X4: the read of [irq_flags] in [trigger_isr] does not wait for the
    interrupt.  When no interrupt is taken from the start of the call up to
    the read, the "actual" line shows the value [irq_flags] had on entry
    (0 after a reset, or a flag left from before), whatever the hardware
    has raised meanwhile. *)
Theorem unserviced_read_is_stale
        (sched : schedule) (slot : nat) (m : machine) (sm : Z) (n : nat) :
  handled m -> room sm m ->
  hw_only (sched slot) -> hw_only (sched (1 + slot)%nat) ->
  hw_only (sched (2 + slot)%nat) -> hw_only (sched (3 + slot)%nat) ->
  exists m' : machine,
    exec env_act (10 + n) (trigger_isr sm) sched slot m = Done m' (10 + slot) n tt /\
    calls m' = (calls m ++
      [call_printf ("Triggering ISR from state machine " ++ fmt_d sm ++ LF);
       call_pio_sm_put_blocking sm 1;
       call_printf ("Expected IRQ flags: 0x" ++ fmt_08X (shl1 sm) ++ LF);
       call_printf ("Actual IRQ Flags: 0x" ++ fmt_08X (irq_flags m) ++ LF)])%list.
Proof.
  intros H Hroom H0 H1 H2 H3. unfold trigger_isr. unfold_calls.
  cbn [Nat.add] in *.
  main_step. main_step. rewrite room_unblocked by auto 20 with pico.
  do 2 main_step.
  do 5 (main_step; try rewrite exec_if_then_nothing).
  main_last_step.
  eexists. split; [reflexivity|].
  field_simpl. rewrite <- !app_assoc. cbn [app].
  repeat (rewrite irq_flags_env_after_hw_only by assumption;
          cbn [irq_flags log set_tx_fifo]).
  reflexivity.
Qed.

(** The stimulus of [k] is on its way: queued, or its flag raised. *)
Lemma run_actions_hw_only_phase (k : Z) (l : list env_action) (p : phase) :
  hw_only l -> p <> Serviced -> fold_left (advance k) l p <> Serviced.
Proof.
  unfold hw_only. revert p.
  induction l as [|[[j]|d] l IH]; intros p H Hp; cbn [fold_left]; [exact Hp| |].
  - cbn [forallb is_hw andb] in H. apply IH; [exact H|].
    destruct p; cbn [advance]; [destruct (j =? k)|..]; congruence.
  - discriminate H.
Qed.

Lemma in_phase_log (k : Z) (p : phase) (c : call) (m : machine) :
  in_phase k p m -> in_phase k p (log c m).
Proof. destruct p; exact (fun H => H). Qed.

(** X5: an interrupt that comes after the read is thrown away.  From a
    state with nothing outstanding, when the stimulus of [trigger_isr k] is
    serviced only after the read of [irq_flags] (and before the reset), the
    "actual" line shows the old value, the handler has acknowledged the
    flag in the hardware, and the reset at the end of [trigger_isr] wipes
    the record of it: nothing is pending, nothing is queued, [irq_flags] is
    0. *)
Theorem late_interrupt_is_lost
        (sched : schedule) (slot : nat) (m : machine) (k : Z) (n : nat) :
  ready m -> 0 <= k <= 3 ->
  hw_only (sched (2 + slot)%nat) -> hw_only (sched (3 + slot)%nat) ->
  serviced_in k
    (sched (2 + slot)%nat ++ sched (3 + slot)%nat ++ sched (4 + slot)%nat ++
     sched (5 + slot)%nat ++ sched (6 + slot)%nat ++ sched (7 + slot)%nat ++
     sched (8 + slot)%nat ++ sched (9 + slot)%nat) ->
  exists m' : machine,
    exec env_act (10 + n) (trigger_isr k) sched slot m = Done m' (10 + slot) n tt /\
    calls m' = (calls m ++
      [call_printf ("Triggering ISR from state machine " ++ fmt_d k ++ LF);
       call_pio_sm_put_blocking k 1;
       call_printf ("Expected IRQ flags: 0x" ++ fmt_08X (shl1 k) ++ LF);
       call_printf ("Actual IRQ Flags: 0x" ++ fmt_08X (irq_flags m) ++ LF)])%list /\
    irq_flags m' = 0 /\ pio0_hw_irq m' = 0 /\ (forall j : Z, tx_fifo m' j = []).
Proof.
  intros (Hidle & I & V & D & O) Hk H2 H3 Hs.
  assert (H : handled m) by (intros _; exact V).
  unfold trigger_isr. unfold_calls. cbn [Nat.add] in *.
  main_step. rewrite (env_after_idle _ m Hidle).
  main_step. rewrite env_after_idle by exact Hidle.
  rewrite room_unblocked
    by (unfold room; cbn [tx_fifo tx_depth log]; rewrite (proj2 Hidle k); exact D).
  cbn [tx_fifo log]. rewrite (proj2 Hidle k). cbn [app].
  (* the stimulus is queued *)
  match goal with |- context [exec env_act _ _ sched _ ?x] => set (mb := x) end.
  assert (Pb : in_phase k Queued mb).
  { destruct Hidle as [P Q]. cbn. split; [exact P|]. split.
    - exists 1. rewrite Z.eqb_refl. reflexivity.
    - intros j Hj. destruct (Z.eqb_spec j k); [contradiction | apply Q]. }
  assert (Ab : armed k mb) by (repeat split; [exact I | exact V | apply O, Hk]).
  assert (Hb : handled mb) by exact H.
  (* the eight turns of the environment up to the reset *)
  do 2 main_step.
  do 5 (main_step; try rewrite exec_if_then_nothing).
  main_last_step.
  eexists. split; [reflexivity|].
  split.
  { field_simpl. subst mb. field_simpl. rewrite <- !app_assoc. cbn [app].
    repeat (rewrite irq_flags_env_after_hw_only by assumption;
            cbn [irq_flags log set_tx_fifo]).
    reflexivity. }
  split; [reflexivity|].
  cbn [pio0_hw_irq tx_fifo set_irq_flags].
  (* all the way to [Serviced] *)
  assert (Hall : forall l p x, armed k x -> in_phase k p x ->
             in_phase k (fold_left (advance k) l p) (env_after l x) /\
             armed k (env_after l x)).
  { intros l p x Ax Px. split; [apply run_actions_phase; assumption|].
    eapply armed_config; [apply env_after_config | exact Ax]. }
  apply serviced_in_advance in Hs. rewrite !fold_left_app in Hs.
  destruct (Hall (sched (S (S slot))) Queued mb Ab Pb) as [P2 A2].
  destruct (Hall (sched (S (S (S slot)))) _
                 (log (call_printf ("Expected IRQ flags: 0x" ++ fmt_08X (shl1 k) ++ LF))
                      (env_after (sched (S (S slot))) mb)) A2
                 (in_phase_log _ _ _ _ P2)) as [P3 A3].
  match type of P3 with in_phase _ _ ?x3 =>
    destruct (Hall (sched (S (S (S (S slot))))) _ x3 A3 P3) as [P4 A4];
    match type of P4 with in_phase _ _ ?x4 =>
      destruct (Hall (sched (S (S (S (S (S slot)))))) _
                     (log (call_printf ("Actual IRQ Flags: 0x" ++
                                        fmt_08X (irq_flags x3) ++ LF)) x4) A4
                     (in_phase_log _ _ _ _ P4)) as [P5 A5]
    end
  end.
  match type of P5 with in_phase _ _ ?x5 =>
    destruct (Hall (sched (S (S (S (S (S (S slot))))))) _ x5 A5 P5) as [P6 A6]
  end.
  match type of P6 with in_phase _ _ ?x6 =>
    destruct (Hall (sched (S (S (S (S (S (S (S slot)))))))) _ x6 A6 P6) as [P7 A7]
  end.
  match type of P7 with in_phase _ _ ?x7 =>
    destruct (Hall (sched (S (S (S (S (S (S (S (S slot))))))))) _ x7 A7 P7) as [P8 A8]
  end.
  match type of P8 with in_phase _ _ ?x8 =>
    destruct (Hall (sched (S (S (S (S (S (S (S (S (S slot)))))))))) _ x8 A8 P8) as [P9 A9]
  end.
  rewrite Hs in P9. destruct P9 as [[P Q] _]. split; [exact P | exact Q].
Qed.


(** ** When the handshake breaks down *)

(** The interrupt enabled and no handler in place: the state
    [enable_pio_isrs] is careful never to be in. *)
Lemma env_act_phase_unhandled (k : Z) (p : phase) (a : env_action) (m : machine) :
  0 <= k <= 3 ->
  irq_enabled m = true -> vector m = None -> sm_offset m k <> None ->
  in_phase k p m -> p <> Serviced ->
  match env_act a m with
  | None => advance k p a = Serviced
  | Some m' => advance k p a <> Serviced /\ in_phase k (advance k p a) m' /\
               same_config m m'
  end.
Proof.
  intros Hk I V O Hp Hs. destruct p; [| |congruence]; cbn [in_phase] in Hp.
  - destruct Hp as (P & (w & Q) & E).
    destruct a as [[j]|during]; cbn [env_act hw_act advance].
    + split; [destruct (j =? k); discriminate|].
      split; [|apply sm_step_config].
      destruct (Z.eqb_spec j k) as [->|Hj].
      * rewrite (sm_step_raises k m w [] Hk O Q) by (rewrite P; apply Z.bits_0).
        cbn [in_phase pio0_hw_irq set_pio0_hw_irq tx_fifo set_tx_fifo]. rewrite P.
        split; [reflexivity|]. intros j.
        destruct (Z.eqb_spec j k); [reflexivity | apply E; assumption].
      * rewrite sm_step_empty by (apply E; exact Hj). cbn [in_phase]. eauto.
    + unfold take_irq, line_asserted. rewrite P. cbn. rewrite andb_false_r.
      split; [discriminate|]. split; [eauto | apply same_config_refl].
  - destruct Hp as (P & Q).
    destruct a as [[j]|during]; cbn [env_act hw_act advance].
    + rewrite sm_step_empty by apply Q.
      split; [discriminate|]. split; [split; assumption | apply same_config_refl].
    + unfold take_irq, line_asserted. rewrite I, V, P.
      replace (negb (Z.land (Z.shiftl 1 k) 15 =? 0)) with true
        by (destruct (shiftl_1_cases k Hk) as [[-> ->] | [[-> ->] | [[-> ->] | [-> ->]]]];
            reflexivity).
      reflexivity.
Qed.

Lemma run_actions_unhandled (k : Z) (l : list env_action) :
  forall (p : phase) (m : machine),
    0 <= k <= 3 ->
    irq_enabled m = true -> vector m = None -> sm_offset m k <> None ->
    in_phase k p m -> p <> Serviced ->
    match run_actions env_act l m with
    | None => fold_left (advance k) l p = Serviced
    | Some m' => fold_left (advance k) l p <> Serviced /\
                 in_phase k (fold_left (advance k) l p) m' /\ same_config m m'
    end.
Proof.
  induction l as [|a l IH]; intros p m Hk I V O Hp Hs; cbn [run_actions fold_left].
  - split; [exact Hs|]. split; [exact Hp | apply same_config_refl].
  - pose proof (env_act_phase_unhandled k p a m Hk I V O Hp Hs) as Ha.
    destruct (env_act a m) as [m1|].
    + destruct Ha as (Hs1 & Hp1 & C1).
      assert (I1 : irq_enabled m1 = true) by (rewrite (proj1 (proj2 (proj2 C1))); exact I).
      assert (V1 : vector m1 = None) by (rewrite (proj1 (proj2 C1)); exact V).
      assert (O1 : sm_offset m1 k <> None).
      { rewrite (proj1 (proj2 (proj2 (proj2 C1)))). exact O. }
      specialize (IH _ m1 Hk I1 V1 O1 Hp1 Hs1).
      destruct (run_actions env_act l m1) as [m2|]; [|exact IH].
      destruct IH as (A & B & C). split; [exact A|]. split; [exact B|].
      eapply same_config_trans; eassumption.
    + rewrite Ha. apply advance_serviced.
Qed.

(** X6: what the ordering in [enable_pio_isrs] guards against.  With the
    interrupt enabled and no handler installed, the interrupt that the
    stimulus of [trigger_isr k] provokes stops the core: the stimulus has
    been sent, but the run ends there, before the flags are read. *)
Theorem unhandled_interrupt_stops_trigger_isr
        (sched : schedule) (slot : nat) (m : machine) (k : Z) (n : nat) :
  idle m -> irq_enabled m = true -> vector m = None ->
  (0 < tx_depth m)%nat -> sm_offset m k <> None -> 0 <= k <= 3 ->
  serviced_in k (sched (2 + slot)%nat ++ sched (3 + slot)%nat) ->
  exists (m' : machine) (s : nat),
    exec env_act (10 + n) (trigger_isr k) sched slot m = Fault m' s /\
    ((s = (2 + slot)%nat /\
      calls m' = (calls m ++
        [call_printf ("Triggering ISR from state machine " ++ fmt_d k ++ LF);
         call_pio_sm_put_blocking k 1])%list) \/
     (s = (3 + slot)%nat /\
      calls m' = (calls m ++
        [call_printf ("Triggering ISR from state machine " ++ fmt_d k ++ LF);
         call_pio_sm_put_blocking k 1;
         call_printf ("Expected IRQ flags: 0x" ++ fmt_08X (shl1 k) ++ LF)])%list)).
Proof.
  intros Hidle I V D O Hk Hs.
  unfold trigger_isr. unfold_calls. cbn [Nat.add] in *.
  rewrite exec_trigger_bind, run_actions_idle by exact Hidle.
  cbv beta. cbn [unblocked handle fst snd].
  rewrite exec_trigger_bind, run_actions_idle by exact Hidle.
  cbv beta. cbn [unblocked handle fst snd tx_fifo tx_depth log].
  rewrite (proj2 Hidle k).
  replace (List.length (@nil Z) <? tx_depth m)%nat with true
    by (symmetry; apply Nat.ltb_lt; exact D).
  cbn [app].
  match goal with |- context [exec env_act _ _ sched _ ?x] => set (mb := x) end.
  assert (Pb : in_phase k Queued mb).
  { destruct Hidle as [P Q]. cbn. split; [exact P|]. split.
    - exists 1. rewrite Z.eqb_refl. reflexivity.
    - intros j Hj. destruct (Z.eqb_spec j k); [contradiction | apply Q]. }
  apply serviced_in_advance in Hs. rewrite fold_left_app in Hs.
  rewrite exec_trigger_bind.
  pose proof (run_actions_unhandled k (sched (S (S slot))) Queued mb Hk I V O Pb
                ltac:(discriminate)) as R2.
  destruct (run_actions env_act (sched (S (S slot))) mb) as [mc|].
  - destruct R2 as (N2 & P2 & C2).
    cbv beta. cbn [unblocked handle fst snd].
    rewrite exec_trigger_bind.
    assert (Ic : irq_enabled mc = true) by (rewrite (proj1 (proj2 (proj2 C2))); exact I).
    assert (Vc : vector mc = None) by (rewrite (proj1 (proj2 C2)); exact V).
    assert (Oc : sm_offset mc k <> None).
    { rewrite (proj1 (proj2 (proj2 (proj2 C2)))). exact O. }
    pose proof (run_actions_unhandled k (sched (S (S (S slot)))) _
                  (log (call_printf ("Expected IRQ flags: 0x" ++ fmt_08X (shl1 k) ++ LF)) mc)
                  Hk Ic Vc Oc (in_phase_log _ _ _ _ P2) N2) as R3.
    destruct (run_actions env_act (sched (S (S (S slot)))) _) as [md|].
    + destruct R3 as (N3 & _). contradiction N3.
    + eexists _, _. split; [reflexivity|]. right. split; [reflexivity|].
      cbn [calls log]. rewrite (proj1 C2). subst mb. cbn [calls log set_tx_fifo].
      rewrite <- !app_assoc. reflexivity.
  - eexists _, _. split; [reflexivity|]. left. split; [reflexivity|].
    subst mb. cbn [calls log set_tx_fifo]. rewrite <- !app_assoc. reflexivity.
Qed.


Lemma stalled_full_env_act (sm : Z) (a : env_action) (m : machine) :
  stalled_full sm m ->
  exists m', env_act a m = Some m' /\ stalled_full sm m' /\ same_config m m'.
Proof.
  intros (I & T & F). destruct a as [[j]|during]; cbn [env_act hw_act].
  - eexists. split; [reflexivity|]. split; [|apply sm_step_config].
    unfold stalled_full, sm_step.
    destruct ((0 <=? j) && (j <=? 3)); [|auto].
    destruct (sm_offset m j); [|auto].
    destruct (tx_fifo m j) as [|w rest] eqn:Q; [auto|].
    destruct (Z.testbit (pio0_hw_irq m) j) eqn:Tj; [auto|].
    assert (Hj : sm <> j) by (intros ->; congruence).
    cbn [irq_enabled pio0_hw_irq tx_fifo tx_depth set_pio0_hw_irq set_tx_fifo].
    split; [exact I|]. split.
    + rewrite Z.lor_spec, T. reflexivity.
    + destruct (Z.eqb_spec sm j); [contradiction | exact F].
  - exists m. unfold take_irq. rewrite I. cbn [andb].
    split; [reflexivity|]. split; [repeat split; assumption | apply same_config_refl].
Qed.

Lemma stalled_full_run_actions (sm : Z) (l : list env_action) (m : machine) :
  stalled_full sm m ->
  exists m', run_actions env_act l m = Some m' /\ stalled_full sm m' /\ same_config m m'.
Proof.
  revert m. induction l as [|a l IH]; intros m H; cbn [run_actions].
  - exists m. split; [reflexivity|]. split; [exact H | apply same_config_refl].
  - destruct (stalled_full_env_act sm a m H) as (m1 & E1 & H1 & C1). rewrite E1.
    destruct (IH m1 H1) as (m2 & E2 & H2 & C2).
    exists m2. split; [exact E2|]. split; [exact H2|].
    eapply same_config_trans; eassumption.
Qed.

(** The call of [pio_sm_put_blocking] never gets its turn. *)
Lemma put_blocked_forever {R : Type} (sm data : Z) (k : unit -> itree picoE R) (fuel : nat) :
  forall (sched : schedule) (slot : nat) (m : machine),
    stalled_full sm m ->
    exists (m' : machine) (s : nat),
      exec env_act fuel (ITree.trigger (Pio_sm_put_blocking pio0 sm data) ;; k tt)
           sched slot m = Out_of_fuel m' s /\
      calls m' = calls m.
Proof.
  induction fuel as [|fuel IH]; intros sched slot m H.
  - exists m, slot. split; reflexivity.
  - rewrite exec_trigger_bind.
    destruct (stalled_full_run_actions sm (sched slot) m H) as (m1 & E1 & H1 & C1).
    rewrite E1. cbn [unblocked].
    replace (List.length (tx_fifo m1 sm) <? tx_depth m1)%nat with false
      by (symmetry; apply Nat.ltb_ge; apply H1).
    destruct (IH sched (S slot) m1 H1) as (m' & s & E & C).
    exists m', s. split; [exact E|]. rewrite C. apply C1.
Qed.

(** X7: [trigger_isr] can hang.  When the interrupt is not enabled, the flag
    of state machine [sm] is never acknowledged, the state machine stays
    stalled on it and its queue does not drain; once that queue is full,
    [trigger_isr sm] prints its first line and then waits in
    [pio_sm_put_blocking] for ever: it never returns and sends nothing,
    whatever the hardware does. *)
Theorem trigger_isr_hangs_when_stalled
        (fuel : nat) (sched : schedule) (slot : nat) (m : machine) (sm : Z) :
  irq_enabled m = false ->
  Z.testbit (pio0_hw_irq m) sm = true ->
  (tx_depth m <= List.length (tx_fifo m sm))%nat ->
  exists (m' : machine) (s : nat),
    exec env_act (S fuel) (trigger_isr sm) sched slot m = Out_of_fuel m' s /\
    calls m' =
      (calls m ++
       [call_printf ("Triggering ISR from state machine " ++ fmt_d sm ++ LF)])%list.
Proof.
  intros I T F.
  assert (H : stalled_full sm m) by (repeat split; assumption).
  unfold trigger_isr. unfold_calls.
  rewrite exec_trigger_bind.
  destruct (stalled_full_run_actions sm (sched slot) m H) as (m1 & E1 & H1 & C1).
  rewrite E1. cbv beta. cbn [unblocked handle fst snd].
  match goal with
  | |- context [exec env_act fuel (ITree.bind _ ?k) sched (S slot) ?x] =>
      destruct (put_blocked_forever sm 1 k fuel sched (S slot) x H1) as (m' & s & E & C)
  end.
  exists m', s. split; [exact E|].
  rewrite C. cbn [calls log]. rewrite (proj1 C1). reflexivity.
Qed.


(** ** What holds at every moment of a run *)

Lemma always_ret {R : Type} (r : R) (J : machine -> Prop) (m : machine) :
  J m -> always (Ret r) J m.
Proof. intros H [|fuel] sched slot; exact H. Qed.

Lemma always_bind {R T : Type} (t : itree picoE R) (k : R -> itree picoE T)
      (J : machine -> Prop) (m : machine) :
  always t J m -> returns t (fun m' r => always (k r) J m') m ->
  always (ITree.bind t k) J m.
Proof.
  intros Ha Hr fuel sched slot. rewrite exec_bind.
  specialize (Ha fuel sched slot). specialize (Hr fuel sched slot).
  destruct (exec env_act fuel t sched slot m) as [m' slot' n' r | |];
    [apply Hr | exact Ha | exact Ha].
Qed.

Lemma always_trigger {X : Type} (e : picoE X) (J : machine -> Prop) (m : machine) :
  (forall m1, same_config m m1 -> J m1 /\ J (fst (handle e m1))) ->
  always (ITree.trigger e) J m.
Proof.
  intros H fuel. revert m H. induction fuel as [|fuel IH]; intros m H sched slot.
  - apply (H m (same_config_refl m)).
  - rewrite exec_trigger.
    destruct (run_actions env_act (sched slot) m) as [m1|] eqn:E;
      [|apply (H m (same_config_refl m))].
    apply run_actions_env_config in E.
    destruct (unblocked e m1).
    + apply (H m1 E).
    + apply IH. intros m2 E2. apply H. eapply same_config_trans; eassumption.
Qed.

Lemma always_trigger_bind {X R : Type} (e : picoE X) (k : X -> itree picoE R)
      (J : machine -> Prop) (m : machine) :
  (forall m1, same_config m m1 ->
     J m1 /\ always (k (snd (handle e m1))) J (fst (handle e m1))) ->
  always (ITree.bind (ITree.trigger e) k) J m.
Proof.
  intros H. apply always_bind.
  - apply always_trigger. intros m1 S. split; [apply (H m1 S)|].
    destruct (H m1 S) as [_ A]. specialize (A 0%nat quiet 0%nat).
    destruct (observe (k (snd (handle e m1)))) eqn:O;
      cbn [exec] in A; rewrite O in A; exact A.
  - apply returns_trigger. intros m1 S. apply (H m1 S).
Qed.

Lemma always_if_then_nothing_bind {R : Type} (c : Z) (k : unit -> itree picoE R)
      (J : machine -> Prop) (m : machine) :
  always (k tt) J m -> always (ITree.bind (if_then_nothing c) k) J m.
Proof.
  intros H fuel sched slot. rewrite exec_if_then_nothing. apply H.
Qed.

Lemma always_weaken {R : Type} (t : itree picoE R) (J J' : machine -> Prop) (m : machine) :
  (forall m', J m' -> J' m') -> always t J m -> always t J' m.
Proof. intros W H fuel sched slot. apply W, H. Qed.

(** A loop keeps [J] when its body, started in [P], keeps [J] and ends in
    [P] again. *)
Lemma always_forever {R T : Type} (body : itree picoE R)
      (P J : machine -> Prop) :
  (forall m, P m -> J m) ->
  (forall m, P m -> always body J m) ->
  (forall m, P m -> returns body (fun m' _ => P m') m) ->
  forall m, P m -> always (ITree.forever body : itree picoE T) J m.
Proof.
  intros HPJ Ha Hr m Hm fuel. revert m Hm.
  induction fuel as [fuel IH] using lt_wf_ind. intros m Hm sched slot.
  rewrite exec_unfold_forever, exec_bind.
  specialize (Ha m Hm fuel sched slot). specialize (Hr m Hm fuel sched slot).
  destruct (exec env_act fuel body sched slot m) as [m' slot' n' r | |] eqn:E;
    [|exact Ha|exact Ha].
  apply exec_done_fuel in E.
  destruct n' as [|n']; cbn [exec observe _observe machine_of]; [apply HPJ, Hr|].
  apply IH; [lia | exact Hr].
Qed.


(** ** The call log at every moment *)

Lemma stable_refl (m : machine) : stable m m.
Proof. unfold stable; tauto. Qed.

Lemma stable_trans (m1 m2 m3 : machine) : stable m1 m2 -> stable m2 m3 -> stable m1 m3.
Proof.
  unfold stable. intros (A1 & A2 & A3 & A4 & A5) (B1 & B2 & B3 & B4 & B5).
  repeat split; congruence.
Qed.

Lemma same_config_stable (m m' : machine) : same_config m m' -> stable m m'.
Proof. unfold same_config, stable. tauto. Qed.

(** Following a state through a turn of the environment and through the
    calls of the code. *)
Lemma track_env (m cur m1 : machine) (l : list call) :
  stable m cur /\ calls cur = (calls m ++ l)%list -> same_config cur m1 ->
  stable m m1 /\ calls m1 = (calls m ++ l)%list.
Proof.
  intros [St C] S. split.
  - eapply stable_trans; [exact St | apply same_config_stable, S].
  - rewrite (proj1 S). exact C.
Qed.

Lemma track_log (m cur : machine) (l : list call) (c : call) :
  stable m cur /\ calls cur = (calls m ++ l)%list ->
  stable m (log c cur) /\ calls (log c cur) = (calls m ++ (l ++ [c]))%list.
Proof.
  intros [St C]. split; [exact St|]. cbn [calls log]. rewrite C, app_assoc. reflexivity.
Qed.

Lemma track_set_tx_fifo (m cur : machine) (l : list call) (sm : Z) (q : list Z) :
  stable m cur /\ calls cur = (calls m ++ l)%list ->
  stable m (set_tx_fifo sm q cur) /\ calls (set_tx_fifo sm q cur) = (calls m ++ l)%list.
Proof. exact (fun H => H). Qed.

Lemma track_set_irq_flags (m cur : machine) (l : list call) (v : Z) :
  stable m cur /\ calls cur = (calls m ++ l)%list ->
  stable m (set_irq_flags v cur) /\ calls (set_irq_flags v cur) = (calls m ++ l)%list.
Proof. exact (fun H => H). Qed.

(** [J] at a state reached within [trigger_isr]: the obligation [H] with
    the tracked facts [T]. *)
Ltac moment H T :=
  eapply H; [apply T | | apply T]; cbn [app]; reflexivity.

Lemma trigger_isr_always (sm : Z) (J : machine -> Prop) (m : machine) :
  (forall (x : machine) (l q : list call) (actual : Z),
      stable m x -> (l ++ q)%list = isr_calls sm actual ->
      calls x = (calls m ++ l)%list -> J x) ->
  always (trigger_isr sm) J m.
Proof.
  intros H. unfold trigger_isr, isr_calls in *. unfold_calls.
  assert (T0 : stable m m /\ calls m = (calls m ++ [])%list)
    by (split; [apply stable_refl | rewrite app_nil_r; reflexivity]).
  (* printf *)
  apply always_trigger_bind. intros m1 S1. pose proof (track_env _ _ _ _ T0 S1) as T1.
  split; [moment H T1|]. cbn [handle fst snd].
  pose proof (track_log _ _ _ (call_printf ("Triggering ISR from state machine " ++ fmt_d sm ++ LF)) T1) as T1'.
  (* pio_sm_put_blocking *)
  apply always_trigger_bind. intros m2 S2. pose proof (track_env _ _ _ _ T1' S2) as T2.
  split; [moment H T2|]. cbn [handle fst snd].
  pose proof (track_log _ _ _ (call_pio_sm_put_blocking sm 1)
                (track_set_tx_fifo _ _ _ sm (tx_fifo m2 sm ++ [1]) T2)) as T2'.
  (* printf *)
  apply always_trigger_bind. intros m3 S3. pose proof (track_env _ _ _ _ T2' S3) as T3.
  split; [moment H T3|]. cbn [handle fst snd].
  pose proof (track_log _ _ _ (call_printf ("Expected IRQ flags: 0x" ++ fmt_08X (shl1 sm) ++ LF)) T3) as T3'.
  (* the read *)
  apply always_trigger_bind. intros m4 S4. pose proof (track_env _ _ _ _ T3' S4) as T4.
  split; [moment H T4|]. cbn [handle fst snd].
  (* printf *)
  apply always_trigger_bind. intros m5 S5. pose proof (track_env _ _ _ _ T4 S5) as T5.
  split; [moment H T5|]. cbn [handle fst snd].
  pose proof (track_log _ _ _ (call_printf ("Actual IRQ Flags: 0x" ++ fmt_08X (irq_flags m4) ++ LF)) T5) as T5'.
  (* the four tests *)
  apply always_trigger_bind. intros m6 S6. pose proof (track_env _ _ _ _ T5' S6) as T6.
  split; [moment H T6|]. cbn [handle fst snd]. apply always_if_then_nothing_bind.
  apply always_trigger_bind. intros m7 S7. pose proof (track_env _ _ _ _ T6 S7) as T7.
  split; [moment H T7|]. cbn [handle fst snd]. apply always_if_then_nothing_bind.
  apply always_trigger_bind. intros m8 S8. pose proof (track_env _ _ _ _ T7 S8) as T8.
  split; [moment H T8|]. cbn [handle fst snd]. apply always_if_then_nothing_bind.
  apply always_trigger_bind. intros m9 S9. pose proof (track_env _ _ _ _ T8 S9) as T9.
  split; [moment H T9|]. cbn [handle fst snd]. apply always_if_then_nothing_bind.
  (* the reset *)
  apply always_trigger. intros m10 S10. pose proof (track_env _ _ _ _ T9 S10) as T10.
  split; [moment H T10|]. cbn [handle fst].
  pose proof (track_set_irq_flags _ _ _ 0 T10) as T10'. moment H T10'.
  Unshelve. all: exact 0.
Qed.

Lemma trigger_isr_returns_within (sm : Z) (m : machine) :
  returns (trigger_isr sm)
    (fun m' _ =>
       stable m m' /\
       exists actual : Z, calls m' = (calls m ++ isr_calls sm actual)%list) m.
Proof.
  unfold trigger_isr, isr_calls. unfold_calls.
  assert (T0 : stable m m /\ calls m = (calls m ++ [])%list)
    by (split; [apply stable_refl | rewrite app_nil_r; reflexivity]).
  apply returns_bind, returns_trigger. intros m1 S1.
  pose proof (track_env _ _ _ _ T0 S1) as T1. cbn [handle fst snd].
  pose proof (track_log _ _ _ (call_printf ("Triggering ISR from state machine " ++ fmt_d sm ++ LF)) T1) as T1'.
  apply returns_bind, returns_trigger. intros m2 S2.
  pose proof (track_env _ _ _ _ T1' S2) as T2. cbn [handle fst snd].
  pose proof (track_log _ _ _ (call_pio_sm_put_blocking sm 1)
                (track_set_tx_fifo _ _ _ sm (tx_fifo m2 sm ++ [1]) T2)) as T2'.
  apply returns_bind, returns_trigger. intros m3 S3.
  pose proof (track_env _ _ _ _ T2' S3) as T3. cbn [handle fst snd].
  pose proof (track_log _ _ _ (call_printf ("Expected IRQ flags: 0x" ++ fmt_08X (shl1 sm) ++ LF)) T3) as T3'.
  apply returns_bind, returns_trigger. intros m4 S4.
  pose proof (track_env _ _ _ _ T3' S4) as T4. cbn [handle fst snd].
  apply returns_bind, returns_trigger. intros m5 S5.
  pose proof (track_env _ _ _ _ T4 S5) as T5. cbn [handle fst snd].
  pose proof (track_log _ _ _ (call_printf ("Actual IRQ Flags: 0x" ++ fmt_08X (irq_flags m4) ++ LF)) T5) as T5'.
  apply returns_bind, returns_trigger. intros m6 S6.
  pose proof (track_env _ _ _ _ T5' S6) as T6. cbn [handle fst snd].
  apply returns_bind, returns_if_then_nothing.
  apply returns_bind, returns_trigger. intros m7 S7.
  pose proof (track_env _ _ _ _ T6 S7) as T7. cbn [handle fst snd].
  apply returns_bind, returns_if_then_nothing.
  apply returns_bind, returns_trigger. intros m8 S8.
  pose proof (track_env _ _ _ _ T7 S8) as T8. cbn [handle fst snd].
  apply returns_bind, returns_if_then_nothing.
  apply returns_bind, returns_trigger. intros m9 S9.
  pose proof (track_env _ _ _ _ T8 S9) as T9. cbn [handle fst snd].
  apply returns_bind, returns_if_then_nothing.
  apply returns_trigger. intros m10 S10.
  pose proof (track_env _ _ _ _ T9 S10) as T10. cbn [handle fst snd].
  split; [apply T10|]. exists (irq_flags m4). apply T10.
Qed.


Ltac assoc_lists := repeat rewrite <- app_assoc; reflexivity.

Lemma turn_always {T : Type} (k : Z) (J : machine -> Prop) (m : machine)
      (rest : itree picoE T) :
  (forall (x : machine) (l q : list call) (actual : Z),
      stable m x -> (l ++ q)%list = turn_calls k actual ->
      calls x = (calls m ++ l)%list -> J x) ->
  (forall (x : machine) (actual : Z),
      stable m x -> calls x = (calls m ++ turn_calls k actual)%list ->
      always rest J x) ->
  always (trigger_isr k ;; sleep_ms 1000 ;; rest) J m.
Proof.
  intros H Hrest. apply always_bind.
  - apply trigger_isr_always. intros x l q actual St E C.
    apply (H x l (q ++ [call_sleep_ms 1000])%list actual St); [|exact C].
    unfold turn_calls. rewrite app_assoc, E. reflexivity.
  - eapply returns_weaken; [|apply trigger_isr_returns_within]. cbv beta.
    intros m' [] (St & actual & C). unfold sleep_ms.
    apply always_trigger_bind. intros m1 S1.
    assert (St1 : stable m m1)
      by (eapply stable_trans; [exact St | apply same_config_stable, S1]).
    split.
    + apply (H m1 (isr_calls k actual) [call_sleep_ms 1000] actual St1); [reflexivity|].
      rewrite (proj1 S1). exact C.
    + cbn [handle fst snd]. apply (Hrest _ actual); [exact St1|].
      cbn [calls log]. rewrite (proj1 S1), C. unfold turn_calls. assoc_lists.
Qed.

Lemma last_turn_always (k : Z) (J : machine -> Prop) (m : machine) :
  (forall (x : machine) (l q : list call) (actual : Z),
      stable m x -> (l ++ q)%list = turn_calls k actual ->
      calls x = (calls m ++ l)%list -> J x) ->
  always (trigger_isr k ;; sleep_ms 1000) J m.
Proof.
  intros H. apply always_bind.
  - apply trigger_isr_always. intros x l q actual St E C.
    apply (H x l (q ++ [call_sleep_ms 1000])%list actual St); [|exact C].
    unfold turn_calls. rewrite app_assoc, E. reflexivity.
  - eapply returns_weaken; [|apply trigger_isr_returns_within]. cbv beta.
    intros m' [] (St & actual & C). unfold sleep_ms.
    apply always_trigger. intros m1 S1.
    assert (St1 : stable m m1)
      by (eapply stable_trans; [exact St | apply same_config_stable, S1]).
    split.
    + apply (H m1 (isr_calls k actual) [call_sleep_ms 1000] actual St1); [reflexivity|].
      rewrite (proj1 S1). exact C.
    + cbn [handle fst]. apply (H (log (call_sleep_ms 1000) m1) (turn_calls k actual) [] actual St1);
        [apply app_nil_r|].
      cbn [calls log]. rewrite (proj1 S1), C. unfold turn_calls. assoc_lists.
Qed.

Lemma turn_returns {T : Type} (k : Z) (Q : machine -> T -> Prop) (m : machine)
      (rest : itree picoE T) :
  (forall (x : machine) (actual : Z),
      stable m x -> calls x = (calls m ++ turn_calls k actual)%list ->
      returns rest Q x) ->
  returns (trigger_isr k ;; sleep_ms 1000 ;; rest) Q m.
Proof.
  intros Hrest. apply returns_bind.
  eapply returns_weaken; [|apply trigger_isr_returns_within]. cbv beta.
  intros m' [] (St & actual & C). unfold sleep_ms.
  apply returns_bind, returns_trigger. intros m1 S1. cbn [handle fst snd].
  assert (St1 : stable m m1)
    by (eapply stable_trans; [exact St | apply same_config_stable, S1]).
  apply (Hrest _ actual).
  - exact St1.
  - cbn [calls log]. rewrite (proj1 S1), C. unfold turn_calls. assoc_lists.
Qed.

Lemma last_turn_returns (k : Z) (m : machine) :
  returns (trigger_isr k ;; sleep_ms 1000)
    (fun m' _ =>
       stable m m' /\
       exists actual : Z, calls m' = (calls m ++ turn_calls k actual)%list) m.
Proof.
  apply returns_bind.
  eapply returns_weaken; [|apply trigger_isr_returns_within]. cbv beta.
  intros m' [] (St & actual & C). unfold sleep_ms.
  apply returns_trigger. intros m1 S1. cbn [handle fst snd].
  assert (St1 : stable m m1)
    by (eapply stable_trans; [exact St | apply same_config_stable, S1]).
  split.
  - exact St1.
  - exists actual. cbn [calls log]. rewrite (proj1 S1), C. unfold turn_calls. assoc_lists.
Qed.

(** Every state within a turn of the loop has the configuration of its
    start and a call log that has grown by a first part of the calls of a
    turn. *)
Lemma main_loop_body_always (J : machine -> Prop) (m : machine) :
  (forall (x : machine) (l q : list call) (a0 a1 a2 a3 : Z),
      stable m x -> (l ++ q)%list = body_calls a0 a1 a2 a3 ->
      calls x = (calls m ++ l)%list -> J x) ->
  always main_loop_body J m.
Proof.
  intros H. unfold main_loop_body.
  apply turn_always.
  { intros x l q a St E C.
    apply (H x l (q ++ turn_calls 1 0 ++ turn_calls 2 0 ++ turn_calls 3 0)%list
             a 0 0 0 St); [|exact C].
    unfold body_calls. rewrite <- E. assoc_lists. }
  intros x0 a0 St0 C0. apply turn_always.
  { intros x l q a St E C.
    apply (H x (turn_calls 0 a0 ++ l)%list (q ++ turn_calls 2 0 ++ turn_calls 3 0)%list
             a0 a 0 0).
    - eapply stable_trans; eassumption.
    - unfold body_calls. rewrite <- E. assoc_lists.
    - rewrite C, C0. assoc_lists. }
  intros x1 a1 St1 C1. apply turn_always.
  { intros x l q a St E C.
    apply (H x (turn_calls 0 a0 ++ turn_calls 1 a1 ++ l)%list (q ++ turn_calls 3 0)%list
             a0 a1 a 0).
    - eapply stable_trans; [exact St0|]. eapply stable_trans; eassumption.
    - unfold body_calls. rewrite <- E. assoc_lists.
    - rewrite C, C1, C0. assoc_lists. }
  intros x2 a2 St2 C2. apply last_turn_always.
  intros x l q a St E C.
  apply (H x (turn_calls 0 a0 ++ turn_calls 1 a1 ++ turn_calls 2 a2 ++ l)%list q
           a0 a1 a2 a).
  - eapply stable_trans; [exact St0|]. eapply stable_trans; [exact St1|].
    eapply stable_trans; eassumption.
  - unfold body_calls. rewrite <- E. assoc_lists.
  - rewrite C, C2, C1, C0. assoc_lists.
Qed.

Lemma main_loop_body_returns_within (m : machine) :
  returns main_loop_body
    (fun m' _ =>
       stable m m' /\
       exists a0 a1 a2 a3 : Z, calls m' = (calls m ++ body_calls a0 a1 a2 a3)%list) m.
Proof.
  unfold main_loop_body.
  apply turn_returns. intros x0 a0 St0 C0.
  apply turn_returns. intros x1 a1 St1 C1.
  apply turn_returns. intros x2 a2 St2 C2.
  eapply returns_weaken; [|apply last_turn_returns]. cbv beta.
  intros m' [] (St & a3 & C). split.
  - eapply stable_trans; [exact St0|]. eapply stable_trans; [exact St1|].
    eapply stable_trans; eassumption.
  - exists a0, a1, a2, a3. rewrite C, C2, C1, C0. unfold body_calls. assoc_lists.
Qed.

(** The start-up, call by call. *)
Lemma startup_at_start (m : machine) : startup_at m m 0.
Proof.
  unfold startup_at. cbn [firstn]. rewrite app_nil_r.
  repeat split; lia.
Qed.

Lemma startup_at_env (m x x' : machine) (done : nat) :
  startup_at m x done -> same_config x x' -> startup_at m x' done.
Proof.
  unfold startup_at, same_config.
  intros (C & A & O & V & I) (S1 & S2 & S3 & S4 & S5 & S6).
  rewrite S1, S2, S3, S4, S5. tauto.
Qed.

Lemma startup_at_stdio (m x : machine) :
  startup_at m x 0 -> startup_at m (log call_stdio_init_all x) 1.
Proof.
  unfold startup_at. intros (C & A & O & V & I). cbn [calls log firstn startup_calls
    add_program_offset sm_offset vector irq_enabled].
  rewrite C. cbn [firstn]. rewrite app_nil_r.
  repeat split; lia.
Qed.

Lemma startup_at_add (m x : machine) :
  startup_at m x 1 ->
  startup_at m (log (call_pio_add_program (add_program_offset x)) x) 2.
Proof.
  unfold startup_at. intros (C & A & O & V & I). cbn [calls log firstn startup_calls
    add_program_offset sm_offset vector irq_enabled].
  rewrite C, A. cbn [firstn startup_calls].
  repeat split; try lia.
  rewrite <- app_assoc. reflexivity.
Qed.

Lemma startup_at_init (m x : machine) (j : nat) (offset : Z) :
  (j < 4)%nat -> offset = add_program_offset m ->
  startup_at m x (2 + j) ->
  startup_at m (log (call_simply_isr_program_init (Z.of_nat j) offset)
                    (set_sm_offset (Z.of_nat j) offset x)) (3 + j).
Proof.
  unfold startup_at. intros Hj -> (C & A & O & V & I).
  cbn [calls log set_sm_offset add_program_offset sm_offset vector irq_enabled].
  rewrite C. split; [|split; [exact A|split; [|split; intros; lia]]].
  - destruct j as [|[|[|[|j]]]]; [| | | |lia]; cbn [firstn startup_calls Nat.add Z.of_nat];
      rewrite <- app_assoc; reflexivity.
  - intros i Hi Hd. destruct (Z.eqb_spec i (Z.of_nat j)) as [->|Hne]; [reflexivity|].
    apply O; lia.
Qed.

Lemma startup_at_vector (m x : machine) :
  startup_at m x 6 ->
  startup_at m (log (call_irq_set_exclusive_handler fn_simply_isr_handler)
                    (set_vector fn_simply_isr_handler x)) 7.
Proof.
  unfold startup_at. intros (C & A & O & V & I).
  cbn [calls log set_vector add_program_offset sm_offset vector irq_enabled].
  rewrite C. split; [|split; [exact A|split; [|split; [reflexivity|intros; lia]]]].
  - cbn [firstn startup_calls]. rewrite <- app_assoc. reflexivity.
  - intros i Hi Hd. apply O; lia.
Qed.

Lemma startup_at_enable (m x : machine) :
  startup_at m x 7 ->
  startup_at m (log (call_irq_set_enabled true) (set_irq_enabled true x)) 8.
Proof.
  unfold startup_at. intros (C & A & O & V & I).
  cbn [calls log set_irq_enabled add_program_offset sm_offset vector irq_enabled].
  rewrite C. split; [|split; [exact A|split; [|split; [|reflexivity]]]].
  - cbn [firstn startup_calls]. rewrite <- app_assoc. reflexivity.
  - intros i Hi Hd. apply O; lia.
  - intros _. apply V. lia.
Qed.

Lemma startup_at_moment (m x : machine) (done : nat) :
  startup_at m x done -> main_moment m x.
Proof.
  intros (C & _). left.
  exists (firstn done (startup_calls (add_program_offset m))),
         (skipn done (startup_calls (add_program_offset m))).
  split; [apply firstn_skipn | exact C].
Qed.

Lemma startup_at_end (m x : machine) : startup_at m x 8 -> between_turns m x.
Proof.
  intros (C & A & O & V & I). split.
  - split; [apply I; lia|]. split; [apply V; lia|].
    intros j Hj. apply O; lia.
  - exists []. split; [constructor|]. rewrite C, app_nil_r. reflexivity.
Qed.

Lemma between_turns_moment (m x : machine) : between_turns m x -> main_moment m x.
Proof.
  intros (Cf & done & W & C). right. split; [exact Cf|].
  exists done, [], (body_calls 0 0 0 0), 0, 0, 0, 0.
  split; [exact W|]. split; [reflexivity|]. rewrite C, app_nil_r. reflexivity.
Qed.

Lemma configured_stable (offset : Z) (m m' : machine) :
  configured offset m -> stable m m' -> configured offset m'.
Proof.
  unfold configured, stable. intros (I & V & O) (S1 & S2 & S3 & _).
  rewrite S1, S2, S3. tauto.
Qed.

Lemma always_bind_bind {R T U : Type} (t : itree picoE R) (k : R -> itree picoE T)
      (k' : T -> itree picoE U) (J : machine -> Prop) (m : machine) :
  always (ITree.bind t (fun x => ITree.bind (k x) k')) J m ->
  always (ITree.bind (ITree.bind t k) k') J m.
Proof.
  intros H fuel sched slot. specialize (H fuel sched slot).
  rewrite exec_bind in H. rewrite !exec_bind.
  destruct (exec env_act fuel t sched slot m) as [m' slot' n' r | |];
    [rewrite exec_bind in H|..]; exact H.
Qed.

(** The loop of [main], entered between two turns. *)
Lemma main_loop_always (m x : machine) :
  between_turns m x ->
  always (ITree.forever main_loop_body : itree picoE Z) (main_moment m) x.
Proof.
  apply (always_forever main_loop_body (between_turns m) (main_moment m)).
  - apply between_turns_moment.
  - intros y (Cf & done & W & C). apply main_loop_body_always.
    intros z l q a0 a1 a2 a3 St E Cz. right. split.
    + eapply configured_stable; eassumption.
    + exists done, l, q, a0, a1, a2, a3. split; [exact W|]. split; [exact E|].
      rewrite Cz, C. assoc_lists.
  - intros y (Cf & done & W & C).
    eapply returns_weaken; [|apply main_loop_body_returns_within]. cbv beta.
    intros z [] (St & a0 & a1 & a2 & a3 & Cz). split.
    + eapply configured_stable; eassumption.
    + exists (done ++ body_calls a0 a1 a2 a3)%list. split; [constructor; exact W|].
      rewrite Cz, C. assoc_lists.
Qed.

(** At every moment of every run of [main], whatever the hardware and the
    interrupts do in between. *)
Lemma main_always (m : machine) : always main (main_moment m) m.
Proof.
  unfold main, load_pio_programs, enable_pio_isrs. unfold_calls. cbv zeta.
  pose proof (startup_at_start m) as T0.
  apply always_trigger_bind. intros m1 S1. pose proof (startup_at_env _ _ _ _ T0 S1) as T1.
  split; [exact (startup_at_moment _ _ _ T1)|]. cbn [handle fst snd].
  apply startup_at_stdio in T1.
  apply always_bind_bind.
  apply always_trigger_bind. intros m2 S2. pose proof (startup_at_env _ _ _ _ T1 S2) as T2.
  split; [exact (startup_at_moment _ _ _ T2)|]. cbn [handle fst snd].
  pose proof (proj1 (proj2 T2)) as A2.
  apply startup_at_add in T2.
  apply always_bind_bind.
  apply always_trigger_bind. intros m3 S3. pose proof (startup_at_env _ _ _ _ T2 S3) as T3.
  split; [exact (startup_at_moment _ _ _ T3)|]. cbn [handle fst snd].
  apply (startup_at_init m m3 0 (add_program_offset m2)) in T3; [|lia|exact A2].
  apply always_bind_bind.
  apply always_trigger_bind. intros m4 S4. pose proof (startup_at_env _ _ _ _ T3 S4) as T4.
  split; [exact (startup_at_moment _ _ _ T4)|]. cbn [handle fst snd].
  apply (startup_at_init m m4 1 (add_program_offset m2)) in T4; [|lia|exact A2].
  apply always_bind_bind.
  apply always_trigger_bind. intros m5 S5. pose proof (startup_at_env _ _ _ _ T4 S5) as T5.
  split; [exact (startup_at_moment _ _ _ T5)|]. cbn [handle fst snd].
  apply (startup_at_init m m5 2 (add_program_offset m2)) in T5; [|lia|exact A2].
  apply always_trigger_bind. intros m6 S6. pose proof (startup_at_env _ _ _ _ T5 S6) as T6.
  split; [exact (startup_at_moment _ _ _ T6)|]. cbn [handle fst snd].
  apply (startup_at_init m m6 3 (add_program_offset m2)) in T6; [|lia|exact A2].
  apply always_bind_bind.
  apply always_trigger_bind. intros m7 S7. pose proof (startup_at_env _ _ _ _ T6 S7) as T7.
  split; [exact (startup_at_moment _ _ _ T7)|]. cbn [handle fst snd].
  apply startup_at_vector in T7.
  apply always_trigger_bind. intros m8 S8. pose proof (startup_at_env _ _ _ _ T7 S8) as T8.
  split; [exact (startup_at_moment _ _ _ T8)|]. cbn [handle fst snd].
  apply startup_at_enable in T8.
  apply main_loop_always, startup_at_end, T8.
Qed.


(** ** The whole run of [main] *)

Lemma pacing_startup_calls (offset : Z) : pacing (startup_calls offset) = [].
Proof. reflexivity. Qed.

Lemma pacing_body_calls (a0 a1 a2 a3 : Z) : pacing (body_calls a0 a1 a2 a3) = one_cycle.
Proof. reflexivity. Qed.

Lemma cycles_snoc (c : nat) : (cycles c ++ one_cycle)%list = cycles (S c).
Proof.
  induction c as [|c IH]; [reflexivity|].
  change (cycles (S c)) with (one_cycle ++ cycles c)%list.
  rewrite <- app_assoc, IH. reflexivity.
Qed.

Lemma whole_turns_pacing (done : list call) :
  whole_turns done -> exists c : nat, pacing done = cycles c.
Proof.
  induction 1 as [|done a0 a1 a2 a3 W [c IH]].
  - exists 0%nat. reflexivity.
  - exists (S c). rewrite pacing_app, IH, pacing_body_calls. apply cycles_snoc.
Qed.

Lemma pacing_startup_part (offset : Z) (l q : list call) :
  (l ++ q)%list = startup_calls offset -> pacing l = [].
Proof.
  intros E. pose proof (pacing_startup_calls offset) as P.
  rewrite <- E, pacing_app in P. apply app_eq_nil in P. apply P.
Qed.

(** X8: at every moment of every run of [main] (whatever the hardware and
    the interrupts do, and also when the run is blocked or has stopped)
    the stimuli and delays made so far are a first part of the rotation
    0, 1, 2, 3 repeated: no state machine is ever stimulated out of turn,
    twice in a row, or without the delay before it. *)
Theorem main_rotation_at_every_moment
        (fuel : nat) (sched : schedule) (m : machine) :
  exists (c : nat) (q : list pace),
    (pacing (calls (machine_of (run fuel main sched m))) ++ q)%list
    = (pacing (calls m) ++ cycles c)%list.
Proof.
  destruct (main_always m fuel sched 0%nat) as [(l & q & E & C) | (_ & D)];
    fold (run fuel main sched m) in *.
  - exists 0%nat, []. rewrite C, pacing_app, (pacing_startup_part _ _ _ E).
    cbn [cycles]. rewrite !app_nil_r. reflexivity.
  - destruct D as (done & p & q & a0 & a1 & a2 & a3 & W & E & C).
    destruct (whole_turns_pacing done W) as [c Pc].
    exists (S c), (pacing q).
    rewrite C, !pacing_app, pacing_startup_calls, Pc. cbn [app].
    rewrite <- !app_assoc, <- (pacing_app p q), E, pacing_body_calls, cycles_snoc.
    reflexivity.
Qed.

(** X9: [main] sends no stimulus before the set-up is complete: at every
    moment of every run either nothing has been sent or delayed yet, or
    the handler is installed, the interrupt enabled and the four state
    machines run the program at the offset it was loaded at. *)
Theorem no_stimulus_before_setup
        (fuel : nat) (sched : schedule) (m : machine) :
  pacing (calls (machine_of (run fuel main sched m))) = pacing (calls m) \/
  configured (add_program_offset m) (machine_of (run fuel main sched m)).
Proof.
  destruct (main_always m fuel sched 0%nat) as [(l & q & E & C) | (Cf & _)];
    fold (run fuel main sched m) in *.
  - left. rewrite C, pacing_app, (pacing_startup_part _ _ _ E). apply app_nil_r.
  - right. exact Cf.
Qed.

Lemma loop_configured (offset : Z) (m : machine) :
  configured offset m ->
  always (ITree.forever main_loop_body : itree picoE Z) (configured offset) m.
Proof.
  apply (always_forever main_loop_body (configured offset) (configured offset)).
  - trivial.
  - intros x Cf. apply main_loop_body_always.
    intros z l q a0 a1 a2 a3 St _ _. eapply configured_stable; eassumption.
  - intros x Cf. eapply returns_weaken; [|apply main_loop_body_returns_within].
    cbv beta. intros z [] (St & _). eapply configured_stable; eassumption.
Qed.

(** X10: what the start-up sets up is never undone: from the eighth step
    on, at every moment and under every schedule, the interrupt is
    enabled, the handler installed and the four state machines run the
    loaded program. *)
Theorem setup_is_never_undone (n : nat) (sched : schedule) (m : machine) :
  handled m ->
  configured (add_program_offset m) (machine_of (run (8 + n) main sched m)).
Proof.
  intros H.
  destruct (main_startup sched m n H) as (m0 & E & _ & V & I & O & _).
  rewrite E. apply loop_configured. split; [exact I|]. split; [exact V | exact O].
Qed.

Lemma main_startup_calls (sched : schedule) (m : machine) (n : nat) :
  handled m ->
  exists m' : machine,
    run (8 + n) main sched m
      = exec env_act n (ITree.forever main_loop_body) sched 8 m' /\
    calls m' = (calls m ++ startup_calls (add_program_offset m))%list /\
    configured (add_program_offset m) m' /\
    tx_depth m' = tx_depth m /\
    (idle m -> idle m').
Proof.
  intros H. unfold run, main, stdio_init_all.
  change (8 + n)%nat with (S (5 + S (S n))). main_step.
  rewrite exec_bind.
  match goal with |- context [exec env_act _ load_pio_programs sched ?s ?mm] =>
    destruct (load_pio_programs_any sched s mm (S (S n)))
      as (m1 & E1 & C1 & S1 & _ & V1 & I1 & D1 & Q1); [auto with pico|] end.
  rewrite E1. assert (H1 : handled m1).
  { eapply handled_same; [exact V1 | exact I1 | auto with pico]. }
  rewrite exec_bind.
  destruct (enable_pio_isrs_any sched 6 m1 n H1)
    as (m2 & E2 & C2 & V2 & I2 & S2 & D2 & Q2).
  change (S (S n)) with (2 + n)%nat. change (5 + 1)%nat with 6%nat. rewrite E2.
  exists m2. split; [reflexivity|].
  split; [|split; [split; [exact I2|split; [exact V2|]]|split]].
  - rewrite C2, C1. field_simpl. unfold startup_calls.
    rewrite <- !app_assoc. reflexivity.
  - intros j Hj. rewrite S2, (S1 j Hj). field_simpl. reflexivity.
  - rewrite D2, D1. field_simpl. reflexivity.
  - intros Hi. apply Q2, Q1. auto with pico.
Qed.

(** X11: the start-up of [main] takes eight steps whatever happens beside
    it and makes eight calls, in this order: [stdio_init_all], the
    program load, the four state machine initialisations 0 to 3, the
    handler registration, the interrupt enable; the loop starts after
    them, with nothing sent and nothing printed yet. *)
Theorem main_startup_order (n : nat) (sched : schedule) (m : machine) :
  handled m ->
  exists m' : machine,
    run (8 + n) main sched m
      = exec env_act n (ITree.forever main_loop_body) sched 8 m' /\
    calls m' = (calls m ++ startup_calls (add_program_offset m))%list /\
    console (calls m') = console (calls m).
Proof.
  intros H. destruct (main_startup_calls sched m n H) as (m' & E & C & _).
  exists m'. split; [exact E|]. split; [exact C|].
  rewrite C, console_app. apply app_nil_r.
Qed.

(** ** Attentive hardware *)

Lemma console_body_calls_matching : console (body_calls 1 2 4 8) = matching_cycle.
Proof. reflexivity. Qed.

Lemma matching_cycles_snoc (c : nat) :
  (matching_cycles c ++ matching_cycle)%list = matching_cycles (S c).
Proof.
  induction c as [|c IH]; [reflexivity|].
  change (matching_cycles (S c)) with (matching_cycle ++ matching_cycles c)%list.
  rewrite <- app_assoc, IH. reflexivity.
Qed.

Lemma trigger_isr_attentive
      (sched : schedule) (slot : nat) (m : machine) (k : Z) (n : nat) :
  attentive sched -> ready m -> 0 <= k <= 3 ->
  exists m' : machine,
    exec env_act (10 + n) (trigger_isr k) sched slot m = Done m' (10 + slot) n tt /\
    calls m' = (calls m ++ isr_calls k (Z.shiftl 1 k))%list /\
    ready m'.
Proof.
  intros Ha Hr Hk.
  destruct (trigger_isr_synchronized sched slot m k n Hr Hk (Ha slot k Hk))
    as (_ & m' & E & C & _ & _ & R').
  exists m'. split; [exact E|]. split; [|exact R'].
  rewrite C. unfold isr_calls. rewrite (shl1_small k Hk). reflexivity.
Qed.

Ltac attentive_turn Ha k fuel_left m' E C R' :=
  rewrite exec_bind;
  match goal with
  | |- context [exec env_act _ (trigger_isr k) ?sched ?s ?mm] =>
      let R := fresh "Hrdy" in
      assert (R : ready mm) by (try apply ready_log; assumption);
      destruct (trigger_isr_attentive sched s mm k fuel_left Ha R ltac:(lia))
        as (m' & E & C & R')
  end.

Lemma main_loop_body_attentive
      (sched : schedule) (slot : nat) (m : machine) (n : nat) :
  attentive sched -> ready m ->
  exists m' : machine,
    exec env_act (44 + n) main_loop_body sched slot m = Done m' (44 + slot) n tt /\
    calls m' = (calls m ++ body_calls 1 2 4 8)%list /\
    ready m'.
Proof.
  intros Ha Hr. unfold main_loop_body, sleep_ms.
  change (44 + n)%nat with (10 + S (33 + n))%nat.
  attentive_turn Ha 0 (S (33 + n)) m0 E0 C0 R0. rewrite E0.
  pose proof (ready_handled m0 R0) as H0.
  cbv beta. main_step. rewrite (env_after_idle _ m0) by apply R0.
  change (33 + n)%nat with (10 + S (22 + n))%nat.
  attentive_turn Ha 1 (S (22 + n)) m1 E1 C1 R1. rewrite E1.
  pose proof (ready_handled m1 R1) as H1.
  cbv beta. main_step. rewrite (env_after_idle _ m1) by apply R1.
  change (22 + n)%nat with (10 + S (11 + n))%nat.
  attentive_turn Ha 2 (S (11 + n)) m2 E2 C2 R2. rewrite E2.
  pose proof (ready_handled m2 R2) as H2.
  cbv beta. main_step. rewrite (env_after_idle _ m2) by apply R2.
  change (11 + n)%nat with (10 + S n)%nat.
  attentive_turn Ha 3 (S n) m3 E3 C3 R3. rewrite E3.
  pose proof (ready_handled m3 R3) as H3.
  cbv beta. main_last_step. rewrite (env_after_idle _ m3) by apply R3.
  eexists. split; [reflexivity|]. split; [|apply ready_log; exact R3].
  cbn [calls log]. rewrite C3. cbn [calls log]. rewrite C2. cbn [calls log].
  rewrite C1. cbn [calls log]. rewrite C0.
  unfold body_calls, turn_calls.
  change (Z.shiftl 1 0) with 1. change (Z.shiftl 1 1) with 2.
  change (Z.shiftl 1 2) with 4. change (Z.shiftl 1 3) with 8.
  rewrite <- !app_assoc. reflexivity.
Qed.

Lemma loop_attentive (sched : schedule) (c : nat) :
  attentive sched ->
  forall (slot : nat) (m : machine) (n : nat),
    ready m ->
    exists m' : machine,
      exec env_act (45 * c + n) (ITree.forever main_loop_body : itree picoE Z) sched slot m
        = exec env_act n (ITree.forever main_loop_body) sched (44 * c + slot) m' /\
      console (calls m') = (console (calls m) ++ matching_cycles c)%list /\
      ready m'.
Proof.
  intros Ha. induction c as [|c IH]; intros slot m n Hr.
  - exists m. cbn [Nat.mul Nat.add matching_cycles]. rewrite app_nil_r.
    repeat split; apply Hr.
  - replace (45 * S c + n)%nat with (44 + S (45 * c + n))%nat by lia.
    rewrite exec_unfold_forever, exec_bind.
    destruct (main_loop_body_attentive sched slot m (S (45 * c + n)) Ha Hr)
      as (m1 & E1 & C1 & R1).
    rewrite E1. cbn [exec observe _observe].
    destruct (IH (44 + slot)%nat m1 n R1) as (m' & E & P & R').
    exists m'. rewrite E.
    replace (44 * c + (44 + slot))%nat with (44 * S c + slot)%nat by lia.
    split; [reflexivity|]. split; [|exact R'].
    rewrite P, C1, console_app, console_body_calls_matching.
    cbn [matching_cycles]. rewrite <- app_assoc. reflexivity.
Qed.

(** X12: from power-on, with attentive hardware, everything [main] prints
    is, turn after turn, the three lines of state machines 0, 1, 2, 3 with
    the actual flags equal to the expected ones, 1, 2, 4 and 8: after the
    eight steps of the start-up every further 45 steps add one such turn
    to the console. *)
Theorem attentive_console
        (sched : schedule) (depth : nat) (offset : Z) (c : nat) :
  (0 < depth)%nat -> attentive sched ->
  exists (m' : machine) (slot : nat),
    run (8 + 45 * c) main sched (boot depth offset) = Out_of_fuel m' slot /\
    console (calls m') = matching_cycles c.
Proof.
  intros Hd Ha.
  assert (H : handled (boot depth offset)) by (intros E; discriminate E).
  destruct (main_startup_calls sched (boot depth offset) (45 * c) H)
    as (m0 & E0 & C0 & (I0 & V0 & O0) & D0 & Q0).
  assert (R0 : ready m0).
  { split; [apply Q0; split; reflexivity|].
    split; [exact I0|]. split; [exact V0|]. split; [rewrite D0; exact Hd|].
    intros j Hj. rewrite (O0 j Hj). discriminate. }
  destruct (loop_attentive sched c Ha 8 m0 0 R0) as (m' & E & P & _).
  exists m', (44 * c + 8)%nat. rewrite E0.
  replace (45 * c)%nat with (45 * c + 0)%nat by lia. rewrite E.
  split; [reflexivity|]. rewrite P, C0. reflexivity.
Qed.


(** ** Further concrete runs *)

Lemma attentive_eager : attentive eager.
Proof. intros slot k Hk. apply eager_serviced, Hk. Defined.

Lemma late_serviced :
  serviced_in 2
    (late 2 (2 + 0)%nat ++ late 2 (3 + 0)%nat ++ late 2 (4 + 0)%nat ++
     late 2 (5 + 0)%nat ++ late 2 (6 + 0)%nat ++ late 2 (7 + 0)%nat ++
     late 2 (8 + 0)%nat ++ late 2 (9 + 0)%nat).
Proof. exists [], [], quiet, []. reflexivity. Defined.

Lemma unguarded_idle : idle unguarded.
Proof. split; [reflexivity | intros j; reflexivity]. Defined.

Lemma stale_8_handled : handled (set_irq_flags 8 (started 0)).
Proof. intros _. vm_compute. reflexivity. Defined.

Lemma stale_8_room : room 2 (set_irq_flags 8 (started 0)).
Proof. vm_compute. lia. Defined.

Lemma handler_reports_all_pending_witness :
  0 <= 0 <= 3 /\ 0 <= 1 <= 3 /\ 0 <> 1 /\
  sm_offset two_queued 0 <> None /\ sm_offset two_queued 1 <> None /\
  tx_fifo two_queued 0 = [1] /\ tx_fifo two_queued 1 = [1] /\
  pio0_hw_irq two_queued = 0 /\
  irq_flags (isr_run quiet (hw_run [Sm_step 0; Sm_step 1] two_queued))
    = Z.lor (Z.shiftl 1 0) (Z.shiftl 1 1) /\
  pio0_hw_irq (isr_run quiet (hw_run [Sm_step 0; Sm_step 1] two_queued)) = 0.
Proof.
  split; [lia|]. split; [lia|]. split; [lia|].
  split; [vm_compute; discriminate|]. split; [vm_compute; discriminate|].
  split; [reflexivity|]. split; [reflexivity|]. split; [reflexivity|].
  destruct (handler_reports_all_pending 0 1 two_queued 1 1 [] [])
    as (A & _ & _ & B);
    [lia | lia | lia | vm_compute; discriminate | vm_compute; discriminate
     | reflexivity | reflexivity | reflexivity |].
  split; [exact A | exact B].
Defined.

Lemma unserviced_read_is_stale_witness :
  handled (set_irq_flags 8 (started 0)) /\ room 2 (set_irq_flags 8 (started 0)) /\
  hw_only (unattended 2 0%nat) /\
  exists m' : machine,
    exec env_act (10 + 0) (trigger_isr 2) (unattended 2) 0 (set_irq_flags 8 (started 0))
      = Done m' (10 + 0) 0 tt /\
    calls m' = (calls (set_irq_flags 8 (started 0)) ++
      [call_printf ("Triggering ISR from state machine " ++ fmt_d 2 ++ LF);
       call_pio_sm_put_blocking 2 1;
       call_printf ("Expected IRQ flags: 0x" ++ fmt_08X (shl1 2) ++ LF);
       call_printf ("Actual IRQ Flags: 0x"
                    ++ fmt_08X (irq_flags (set_irq_flags 8 (started 0))) ++ LF)])%list.
Proof.
  split; [exact stale_8_handled|]. split; [exact stale_8_room|].
  split; [reflexivity|].
  apply (unserviced_read_is_stale (unattended 2) 0 (set_irq_flags 8 (started 0)) 2 0);
    [exact stale_8_handled | exact stale_8_room
     | reflexivity | reflexivity | reflexivity | reflexivity].
Defined.

Lemma late_interrupt_is_lost_witness :
  ready (started 0) /\ 0 <= 2 <= 3 /\
  hw_only (late 2 (2 + 0)%nat) /\ hw_only (late 2 (3 + 0)%nat) /\
  exists m' : machine,
    exec env_act (10 + 0) (trigger_isr 2) (late 2) 0 (started 0) = Done m' (10 + 0) 0 tt /\
    calls m' = (calls (started 0) ++
      [call_printf ("Triggering ISR from state machine " ++ fmt_d 2 ++ LF);
       call_pio_sm_put_blocking 2 1;
       call_printf ("Expected IRQ flags: 0x" ++ fmt_08X (shl1 2) ++ LF);
       call_printf ("Actual IRQ Flags: 0x" ++ fmt_08X (irq_flags (started 0)) ++ LF)])%list /\
    irq_flags m' = 0 /\ pio0_hw_irq m' = 0 /\ (forall j : Z, tx_fifo m' j = []).
Proof.
  split; [exact started_ready|]. split; [lia|].
  split; [reflexivity|]. split; [reflexivity|].
  apply (late_interrupt_is_lost (late 2) 0 (started 0) 2 0);
    [exact started_ready | lia | reflexivity | reflexivity | exact late_serviced].
Defined.

Lemma unhandled_interrupt_stops_trigger_isr_witness :
  idle unguarded /\ irq_enabled unguarded = true /\ vector unguarded = None /\
  (0 < tx_depth unguarded)%nat /\ sm_offset unguarded 2 <> None /\
  serviced_in 2 (prompt 2 (2 + 0)%nat ++ prompt 2 (3 + 0)%nat) /\
  exists (m' : machine) (s : nat),
    exec env_act (10 + 0) (trigger_isr 2) (prompt 2) 0 unguarded = Fault m' s.
Proof.
  split; [exact unguarded_idle|]. split; [reflexivity|]. split; [reflexivity|].
  split; [vm_compute; lia|]. split; [vm_compute; discriminate|].
  split; [exact prompt_serviced|].
  destruct (unhandled_interrupt_stops_trigger_isr (prompt 2) 0 unguarded 2 0)
    as (m' & s & E & _);
    [exact unguarded_idle | reflexivity | reflexivity | vm_compute; lia
     | vm_compute; discriminate | lia | exact prompt_serviced |].
  exists m', s. exact E.
Defined.

Lemma trigger_isr_hangs_when_stalled_witness :
  irq_enabled jammed = false /\ Z.testbit (pio0_hw_irq jammed) 2 = true /\
  (tx_depth jammed <= List.length (tx_fifo jammed 2))%nat /\
  exists (m' : machine) (s : nat),
    exec env_act (S 20) (trigger_isr 2) eager 0 jammed = Out_of_fuel m' s /\
    calls m' =
      (calls jammed ++
       [call_printf ("Triggering ISR from state machine " ++ fmt_d 2 ++ LF)])%list.
Proof.
  split; [reflexivity|]. split; [reflexivity|]. split; [vm_compute; lia|].
  apply (trigger_isr_hangs_when_stalled 20 eager 0 jammed 2);
    [reflexivity | reflexivity | vm_compute; lia].
Defined.

Lemma setup_is_never_undone_witness :
  handled (boot 4 17) /\
  configured (add_program_offset (boot 4 17))
             (machine_of (run (8 + 100) main eager (boot 4 17))).
Proof.
  split; [exact boot_handled|].
  apply (setup_is_never_undone 100 eager (boot 4 17)). exact boot_handled.
Defined.

Lemma main_startup_order_witness :
  handled (boot 4 17) /\
  exists m' : machine,
    run (8 + 0) main quiet (boot 4 17)
      = exec env_act 0 (ITree.forever main_loop_body) quiet 8 m' /\
    calls m' = (calls (boot 4 17) ++ startup_calls (add_program_offset (boot 4 17)))%list /\
    console (calls m') = console (calls (boot 4 17)).
Proof.
  split; [exact boot_handled|].
  apply (main_startup_order 0 quiet (boot 4 17)). exact boot_handled.
Defined.

Lemma attentive_console_witness :
  (0 < 4)%nat /\ attentive eager /\
  exists (m' : machine) (slot : nat),
    run (8 + 45 * 2) main eager (boot 4 17) = Out_of_fuel m' slot /\
    console (calls m') = matching_cycles 2.
Proof.
  split; [lia|]. split; [exact attentive_eager|].
  apply (attentive_console eager 4 17 2); [lia | exact attentive_eager].
Defined.
